(** * PRANA audio processing engine: a shallow embedding and its properties

    The definitions below follow [src/components/prana/AudioProcessor.jsx]
    function by function.

    - JavaScript numbers are IEEE-754 binary64 values, modelled by the
      Standard Library's [spec_float] at precision 53 with the operations
      of [SpecFloat]; NaN, the infinities and the two zeros are all there.
    - A [Float32Array] is a list of numbers; its cells hold binary32
      values, so every store of a number into one goes through
      [Math_fround].
    - Array lengths, indices and loop counters are integers and are kept
      in [Z] or [nat].
    - [Math.sqrt] and [Math.pow(x, 2)] are taken as correctly rounded;
      [Math.cos] and [Math.sin] are parameters of the engine.
    - A loop that may run forever carries fuel and returns [None] when it
      would not end. *)

From Stdlib Require Import ZArith Bool Lia.
From Stdlib Require Import Floats.SpecFloat.
From stdpp Require Import base list strings gmap sorting.

Local Open Scope Z_scope.

(* ===================================================================== *)
(** ** JavaScript numbers *)
(* ===================================================================== *)

Module JS.

Definition number : Type := spec_float.

Definition prec : Z := 53.
Definition emax : Z := 1024.

Definition NaN : number := S754_nan.
Definition zero : number := S754_zero false.
Definition neg_zero : number := S754_zero true.

Definition add : number -> number -> number := SFadd prec emax.
Definition sub : number -> number -> number := SFsub prec emax.
Definition mul : number -> number -> number := SFmul prec emax.
Definition div : number -> number -> number := SFdiv prec emax.

(** [a < b], [a > b], [a >= b], [a === b] on numbers; all are [false] as
    soon as one side is NaN. *)
Definition lt (a b : number) : bool := SFltb a b.
Definition gt (a b : number) : bool := SFltb b a.
Definition le (a b : number) : bool := SFleb a b.
Definition ge (a b : number) : bool := SFleb b a.
Definition eq (a b : number) : bool := SFeqb a b.

Definition isNaN (a : number) : bool :=
  match a with S754_nan => true | _ => false end.

(** An integer seen as a number (exact below 2^53). *)
Definition of_Z (n : Z) : number := binary_normalize prec emax n 0 false.

(** The decimal literal [m / 10^k], e.g. [dec 2 2] for [0.02]: dividing two
    exactly represented integers rounds once, as parsing the literal does. *)
Definition dec (m : Z) (k : Z) : number := div (of_Z m) (of_Z (10 ^ k)).

(** [Math.abs], [Math.sqrt]. *)
Definition Math_abs (x : number) : number := SFabs x.
Definition Math_sqrt (x : number) : number := SFsqrt prec emax x.

(** [Math.fround]: round to binary32 and read the result back as a number.
    This is what a store into a [Float32Array] does. *)
Definition Math_fround (x : number) : number :=
  match x with
  | S754_finite s m e =>
      match binary_round 24 128 s m e with
      | S754_finite s' m' e' => binary_round prec emax s' m' e'
      | y => y
      end
  | _ => x
  end.

(** [Math.min] and [Math.max] on two arguments: NaN is contagious and
    [-0] counts as smaller than [+0]. *)
Definition Math_min (a b : number) : number :=
  if isNaN a || isNaN b then NaN
  else if lt a b then a
  else if lt b a then b
  else match a with S754_zero true => a | _ => b end.

Definition Math_max (a b : number) : number :=
  if isNaN a || isNaN b then NaN
  else if lt a b then b
  else if lt b a then a
  else match a with S754_zero false => a | _ => b end.

(** [Math.round]: the nearest integer, ties towards +infinity; the sign of
    a zero result is the sign of the argument. *)
Definition Math_round (x : number) : number :=
  match x with
  | S754_finite s m e =>
      if 0 <=? e then x
      else
        let k := Z.opp e in
        let sm := if s then Z.neg m else Z.pos m in
        let r := (2 * sm + 2 ^ k) / 2 ^ (k + 1) in
        if r =? 0 then S754_zero s else of_Z r
  | _ => x
  end.

(** [Math.pow(x, 2)], taken as the correctly rounded square. *)
Definition Math_pow2 (x : number) : number := mul x x.

(** [Math.PI]. *)
Definition Math_PI : number := S754_finite false 7074237752028440 (-51).

End JS.

Import JS.

Declare Scope js_scope.
Delimit Scope js_scope with js.
Infix "+" := JS.add : js_scope.
Infix "-" := JS.sub : js_scope.
Infix "*" := JS.mul : js_scope.
Infix "/" := JS.div : js_scope.
Infix "<?" := JS.lt : js_scope.
Infix ">?" := JS.gt : js_scope.
Infix "<=?" := JS.le : js_scope.
Infix ">=?" := JS.ge : js_scope.

Local Open Scope js_scope.

(** The literals and roundings agree with what a JavaScript engine
    computes: [0.02], [Math.fround(0.1)], [Math.round] at ties and below
    zero, [0 / 0] and [0 / -1]. *)
Example literal_0_02 : dec 2 2 = S754_finite false 5764607523034235 (-58).
Proof. reflexivity. Qed.

Example fround_0_1 : Math_fround (dec 1 1) = S754_finite false 7205759511166976 (-56).
Proof. reflexivity. Qed.

Example round_ties :
  Math_round (dec 25 1) = of_Z 3 /\ Math_round (dec (-25) 1) = of_Z (-2) /\
  Math_round (dec (-2) 1) = neg_zero /\ Math_round (dec 15 0) = of_Z 15.
Proof. repeat split. Qed.

Example zero_quotients : zero / zero = NaN /\ zero / of_Z (-1) = neg_zero.
Proof. split; reflexivity. Qed.

(** Length of an array, as the integer JavaScript reports. *)
Definition len {A} (l : list A) : Z := Z.of_nat (length l).

(** Reading a cell of a numeric array; out of range gives [undefined], which
    every use below converts to NaN. *)
Definition cell (l : list number) (i : nat) : number := default NaN (l !! i).

(** [TypedArray.prototype.slice(start, end)] with its relative indices. *)
Definition slice {A} (l : list A) (s e : Z) : list A :=
  let n := len l in
  let k := if (s <? 0)%Z then Z.max (n + s) 0 else Z.min s n in
  let f := if (e <? 0)%Z then Z.max (n + e) 0 else Z.min e n in
  take (Z.to_nat (f - k)) (drop (Z.to_nat k) l).

(** [new Float32Array(n)] for an integer [n]: a RangeError ([None]) when
    [n] is negative, when it is above 2^53 - 1 (the bound of [ToIndex]), and
    when it is above [maxLength], the longest array the engine allocates;
    otherwise [n] cells, all zero. *)
Definition Float32Array_new (maxLength n : Z) : option (list number) :=
  if ((n <? 0) || (2 ^ 53 - 1 <? n) || (maxLength <? n))%Z then None
  else Some (replicate (Z.to_nat n) zero).

(* ===================================================================== *)
(** ** DATA STRUCTURE: Circular Buffer *)
(* ===================================================================== *)

Module CircularBuffer.

(** [head] and [tail] are array indices, or NaN ([None]) once a remainder
    by a zero [size] has been taken. *)
Record t := mk {
  buffer : list number;
  size : nat;
  head : option nat;
  tail : option nat;
  count : nat
}.

(** [x % size] for a non-negative index [x]. *)
Definition rem (x : option nat) (size : nat) : option nat :=
  match x, size with
  | Some a, S _ => Some (a mod size)%nat
  | _, _ => None
  end.

Definition succ (x : option nat) : option nat := S <$> x.

(** [new CircularBuffer(size)] for an integer [size].  It throws when
    [new Float32Array(size)] does, and sets the fields otherwise. *)
Definition constructor (maxLength n : Z) : option t :=
  buffer ← Float32Array_new maxLength n;
  Some (mk buffer (Z.to_nat n) (Some 0%nat) (Some 0%nat) 0).

(** A store at an index that is NaN or outside the array is dropped. *)
Definition store (b : list number) (i : option nat) (v : number) : list number :=
  match i with
  | Some j => <[j := Math_fround v]> b
  | None => b
  end.

Definition push (q : t) (value : number) : t :=
  let buffer' := store (buffer q) (tail q) value in
  let tail' := rem (succ (tail q)) (size q) in
  if (count q <? size q)%nat
  then mk buffer' (size q) (head q) tail' (S (count q))
  else mk buffer' (size q) (rem (succ (head q)) (size q)) tail' (count q).

Definition pushArray (q : t) (arr : list number) : t := foldl push q arr.

(** Cells are copied as they are: both arrays hold binary32 values. *)
Definition toArray (q : t) : list number :=
  (fun i : nat =>
     match rem ((fun h => h + i)%nat <$> head q) (size q) with
     | Some j => cell (buffer q) j
     | None => NaN
     end) <$> seq 0 (count q).

Definition clear (q : t) : t := mk (buffer q) (size q) (Some 0%nat) (Some 0%nat) 0.

End CircularBuffer.

(* ===================================================================== *)
(** ** DATA STRUCTURE: Feature HashMap *)
(* ===================================================================== *)

Module FeatureMap.

Section Map.
Context {V : Type}.

(** A plain object as [snapshot()] builds it: its own properties, and the
    value it inherits from once an assignment to ["__proto__"] has replaced
    [Object.prototype] ([None] while it has not). *)
Record object := mkObject {
  own : gmap string V;
  proto : option V
}.

(** A property of a history entry: a copied feature, or the time stamp. *)
Inductive field :=
  | Feature (value : V)
  | Timestamp (now : number).

(** [features] is the JavaScript [Map]; [history] is the log of snapshots,
    one plain object each. *)
Record t := mk {
  features : gmap string V;
  history : list (gmap string field)
}.

Definition constructor : t := mk ∅ [].

Definition set (m : t) (key : string) (value : V) : t :=
  mk (<[key := value]> (features m)) (history m).

(** [None] is [undefined]. *)
Definition get (m : t) (key : string) : option V := features m !! key.

(** [snap[k] = v] for every entry of the map, on a fresh [{}].  An
    ordinary key becomes an own property.  The key ["__proto__"] reaches the
    setter inherited from [Object.prototype] instead: no property is
    created, and the prototype of [snap] is replaced when [v] is an object
    ([isObject v]: an array of frames is, a number is not). *)
Definition copy (isObject : V -> bool) (f : gmap string V) : object :=
  mkObject (delete "__proto__" f)
           (v ← f !! "__proto__"; if isObject v then Some v else None).

(** [{ ...snap, timestamp: now }]: the own properties of [snap], then
    [timestamp], which replaces a copied property of that name. *)
Definition entry (snap : object) (now : number) : gmap string field :=
  <["timestamp" := Timestamp now]> (Feature <$> own snap).

(** [snapshot()] logs an entry and returns the copy; [now] is
    [Date.now()]. *)
Definition snapshot (isObject : V -> bool) (m : t) (now : number) : object * t :=
  let snap := copy isObject (features m) in
  (snap, mk (features m) (history m ++ [entry snap now])).

Definition getHistory (m : t) : list (gmap string field) := history m.

Definition clear (m : t) : t := mk ∅ [].

End Map.

Arguments t : clear implicits.
Arguments object : clear implicits.
Arguments field : clear implicits.

End FeatureMap.

(* ===================================================================== *)
(** ** DATA STRUCTURE: Priority Queue *)
(* ===================================================================== *)

Module PriorityQueue.

Section Queue.
Context {A : Type}.

Record item := mkItem { element : A; priority : number }.

Definition t := list item.

Definition constructor : t := [].

(** The scan of [enqueue]: [Some] is the array after the [splice] (the
    loop broke with [added = true]); [None] means the loop ran off the
    end with [added = false]. *)
Fixpoint scan (it : item) (items : t) : option t :=
  match items with
  | [] => None
  | x :: rest =>
      if priority it >? priority x then Some (it :: x :: rest)
      else cons x <$> scan it rest
  end.

Definition enqueue (items : t) (e : A) (p : number) : t :=
  let it := mkItem e p in
  match scan it items with
  | Some items' => items'
  | None => items ++ [it]
  end.

Definition dequeue (items : t) : option item * t :=
  match items with
  | [] => (None, [])
  | x :: rest => (Some x, rest)
  end.

Definition peek (items : t) : option item := head items.

(** [getAll()] pairs each element's own fields with its [severity]. *)
Definition getAll (items : t) : list (A * number) :=
  (fun i => (element i, priority i)) <$> items.

Definition isEmpty (items : t) : bool :=
  match items with [] => true | _ => false end.

Definition clear (items : t) : t := [].

End Queue.

Arguments item : clear implicits.
Arguments t : clear implicits.

End PriorityQueue.

(* ===================================================================== *)
(** ** ALGORITHMS on one frame *)
(* ===================================================================== *)

(** The loop of [calculateZCR], [prev] being [signal[i - 1]]. *)
Fixpoint countCrossings (prev : number) (rest : list number) (crossings : Z) : Z :=
  match rest with
  | [] => crossings
  | x :: rest' =>
      countCrossings x rest'
        (if ((x >=? zero) && (prev <? zero)) || ((x <? zero) && (prev >=? zero))
         then (crossings + 1)%Z else crossings)
  end.

Definition calculateZCR (signal : list number) : number :=
  let crossings :=
    match signal with
    | [] => 0%Z
    | x0 :: rest => countCrossings x0 rest 0
    end in
  of_Z crossings / of_Z (len signal - 1).

Definition calculateEnergy (signal : list number) : number :=
  let energy := foldl (fun energy x => energy + x * x) zero signal in
  energy / of_Z (len signal).

Definition calculateRMS (signal : list number) : number :=
  Math_sqrt (calculateEnergy signal).

(** [removeNoise(signal, noiseThreshold)]; the result is a [Float32Array]. *)
Definition removeNoise (signal : list number) (noiseThreshold : number) : list number :=
  (fun x => if Math_abs x >? noiseThreshold then Math_fround x else zero) <$> signal.

Definition default_noiseThreshold : number := dec 2 2.


(* ===================================================================== *)
(** ** ALGORITHM: Peak Detection *)
(* ===================================================================== *)

Record Peak := mkPeak { index : nat; value : number }.

(** One turn of the loop of [detectPeaks] at position [i]. *)
Definition detectPeaks_step (signal : list number) (threshold : number)
    (minDistance : Z) (peaks : list Peak) (i : nat) : list Peak :=
  if (cell signal i >? cell signal (i - 1))
     && (cell signal i >? cell signal (i + 1))
     && (cell signal i >? threshold)
  then
    match last peaks with
    | None => peaks ++ [mkPeak i (cell signal i)]
    | Some p =>
        if (minDistance <? Z.of_nat i - Z.of_nat (index p))%Z
        then peaks ++ [mkPeak i (cell signal i)]
        else peaks
    end
  else peaks.

Definition detectPeaks (signal : list number) (threshold : number) : list Peak :=
  let minDistance := (len signal / 20)%Z in
  foldl (detectPeaks_step signal threshold minDistance) []
        (seq 1 (length signal - 2)).

Definition default_peakThreshold : number := dec 1 1.

(* ===================================================================== *)
(** ** ALGORITHM: Fourier transform and sliding window analysis *)
(* ===================================================================== *)

Record FFTResult := mkFFT {
  real : list number;
  imag : list number;
  magnitudes : list number
}.

(** [Math.pow(2, Math.ceil(Math.log2(n)))] for an array length [n]. *)
Definition paddedLength (n : Z) : Z :=
  if (n <=? 0)%Z then 0%Z else (2 ^ Z.log2_up n)%Z.

Record WindowFeature := mkWindow {
  startSample : Z;
  energy : number;
  rms : number;
  zcr : number;
  dominantFreq : number;
  fftMagnitudes : list number;
  timestamp : number
}.

(** The search for the dominant bin, from bin 1 on. *)
Fixpoint dominantScan (mags : list number) (i : Z) (maxMag : number) (bin : Z) : Z :=
  match mags with
  | [] => bin
  | m :: rest =>
      if m >? maxMag then dominantScan rest (i + 1)%Z m i
      else dominantScan rest (i + 1)%Z maxMag bin
  end.

Definition dominantFreqBin (mags : list number) : Z :=
  dominantScan (drop 1 mags) 1 zero 0.

Section Engine.

(** [Math.cos] and [Math.sin] are implementation-approximated in
    ECMAScript; the engine is modelled over any pair of them. *)
Variables Math_cos Math_sin : number -> number.

(** The inner loop of [fft] for bin [k], from sample [t] on. *)
Fixpoint fft_sums (P k t : Z) (padded : list number) (sumReal sumImag : number)
    : number * number :=
  match padded with
  | [] => (sumReal, sumImag)
  | x :: rest =>
      let angle := (of_Z 2 * Math_PI * of_Z k * of_Z t) / of_Z P in
      fft_sums P k (t + 1)%Z rest
               (sumReal + x * Math_cos angle)
               (sumImag - x * Math_sin angle)
  end.

(** The three result arrays have [paddedLength / 2] cells; for a
    one-sample signal that is [Float32Array(0.5)], of length 0. *)
Definition fft (signal : list number) : FFTResult :=
  let n := len signal in
  let P := paddedLength n in
  let padded := (Math_fround <$> signal) ++ replicate (Z.to_nat (P - n)) zero in
  let bins := (fun k : nat => fft_sums P (Z.of_nat k) 0 padded zero zero)
                <$> seq 0 (Z.to_nat (P / 2)) in
  mkFFT ((fun b => Math_fround (fst b)) <$> bins)
        ((fun b => Math_fround (snd b)) <$> bins)
        ((fun b => Math_fround (Math_sqrt (fst b * fst b + snd b * snd b))) <$> bins).

(** The body of the loop of [slidingWindowAnalysis] for one [start]. *)
Definition analyzeWindow (signal : list number) (windowSize : Z)
    (sampleRate : number) (start : Z) : WindowFeature :=
  let window := slice signal start (start + windowSize) in
  let fftResult := fft window in
  let bin := dominantFreqBin (magnitudes fftResult) in
  mkWindow start
           (calculateEnergy window)
           (calculateRMS window)
           (calculateZCR window)
           ((of_Z bin * sampleRate) / (of_Z windowSize * of_Z 2))
           (magnitudes fftResult)
           (of_Z start / sampleRate).

(** The loop of [slidingWindowAnalysis]; [None] when the fuel runs out. *)
Fixpoint slidingWindow_loop (fuel : nat) (signal : list number)
    (windowSize hopSize : Z) (sampleRate : number)
    (start : Z) (windows : list WindowFeature) : option (list WindowFeature) :=
  match fuel with
  | O => None
  | S fuel' =>
      if (start <? len signal - windowSize)%Z
      then slidingWindow_loop fuel' signal windowSize hopSize sampleRate
             (start + hopSize)%Z
             (windows ++ [analyzeWindow signal windowSize sampleRate start])
      else Some windows
  end.

(** With a positive [hopSize] the loop tests its condition at most
    [signal.length - windowSize + 1] times, which is the fuel given here;
    [None] therefore stands for a loop that never ends ([hopSize <= 0]). *)
Definition slidingWindowAnalysis (signal : list number)
    (windowSize hopSize : Z) (sampleRate : number) : option (list WindowFeature) :=
  slidingWindow_loop (S (Z.to_nat (len signal - windowSize)))
                     signal windowSize hopSize sampleRate 0 [].

End Engine.

(* ===================================================================== *)
(** ** CLASSIFICATION ALGORITHM *)
(* ===================================================================== *)

(** What the feature map of [analyzeBreathing] holds under its keys. *)
Inductive FeatureValue :=
  | FNum (x : number)
  | FCount (n : Z)
  | FFrames (ws : list WindowFeature).

(** A value read from the map and used as a number: [undefined] and an
    array of frame records convert to NaN, the empty array to 0. *)
Definition toNumber (v : option FeatureValue) : number :=
  match v with
  | Some (FNum x) => x
  | Some (FCount n) => of_Z n
  | Some (FFrames []) => zero
  | Some (FFrames (_ :: _)) => NaN
  | None => NaN
  end.

(** A value read from the map and used as the array of frames. *)
Definition toFrames (v : option FeatureValue) : option (list WindowFeature) :=
  match v with
  | Some (FFrames ws) => Some ws
  | _ => None
  end.

Inductive AbnormalityType := wheezing | irregular | shortness | noise.

Record AbnormalityEvent := mkEvent {
  type : AbnormalityType;
  description : string;
  percentage : number
}.

Inductive Status := normal | abnormal.
Inductive BreathingType := deep | slow | regular.
Inductive LungComfort := Good | Moderate | Fair | NeedsAttention.

(** The object returned by [classifyBreathing]; a field that the returned
    object does not have is [None]. *)
Record Classification := mkClassification {
  status : Status;
  breathingType : option BreathingType;
  abnormalityConfidence : option number;
  stabilityScore : number;
  lungComfort : LungComfort;
  confidenceScore : number
}.

Definition NORMAL_ZCR_MAX : number := dec 8 2.
Definition NORMAL_VARIANCE_MAX : number := dec 5 4.
Definition NORMAL_BREATHING_RATE_MIN : number := of_Z 10.
Definition NORMAL_BREATHING_RATE_MAX : number := of_Z 18.
Definition HIGH_AMPLITUDE_THRESHOLD : number := dec 6 2.
Definition LOW_AMPLITUDE_THRESHOLD : number := dec 1 2.
Definition MIN_SIGNAL_THRESHOLD : number := dec 8 3.

(** The mutable locals of [classifyBreathing] and the queue it fills. *)
Record ClassifierState := mkState {
  isNormal : bool;
  abnormalityScore : number;
  abnormalityQueue : PriorityQueue.t AbnormalityEvent
}.

(** Check 1: zero crossing rate. *)
Definition checkZCR (avgZCR : number) (st : ClassifierState) : ClassifierState :=
  if avgZCR >? NORMAL_ZCR_MAX then
    let severity :=
      Math_min (of_Z 100) (((avgZCR - NORMAL_ZCR_MAX) / NORMAL_ZCR_MAX) * of_Z 100) in
    mkState false
      (abnormalityScore st + severity * dec 4 1)
      (PriorityQueue.enqueue (abnormalityQueue st)
         (mkEvent wheezing "Wheezing pattern detected (high frequency)"
                  (Math_round (Math_max (of_Z 35) severity)))
         severity)
  else st.

(** Check 2: energy variance. *)
Definition checkVariance (energyVariance : number) (st : ClassifierState) : ClassifierState :=
  if energyVariance >? NORMAL_VARIANCE_MAX then
    let severity :=
      Math_min (of_Z 100)
        (((energyVariance - NORMAL_VARIANCE_MAX) / NORMAL_VARIANCE_MAX) * of_Z 80) in
    mkState false
      (abnormalityScore st + severity * dec 35 2)
      (PriorityQueue.enqueue (abnormalityQueue st)
         (mkEvent irregular "Irregular breathing rhythm detected"
                  (Math_round (Math_max (of_Z 30) severity)))
         severity)
  else st.

(** Check 3: breathing rate. *)
Definition checkRate (breathingRate : number) (st : ClassifierState) : ClassifierState :=
  if (breathingRate <? NORMAL_BREATHING_RATE_MIN)
     || (breathingRate >? NORMAL_BREATHING_RATE_MAX) then
    let '(severity, description) :=
      if breathingRate <? NORMAL_BREATHING_RATE_MIN
      then (((NORMAL_BREATHING_RATE_MIN - breathingRate) / NORMAL_BREATHING_RATE_MIN)
              * of_Z 70,
            "Slow breathing rate (Bradypnea)"%string)
      else (((breathingRate - NORMAL_BREATHING_RATE_MAX) / NORMAL_BREATHING_RATE_MAX)
              * of_Z 80,
            "Rapid breathing rate (Tachypnea)"%string) in
    mkState false
      (abnormalityScore st + severity * dec 3 1)
      (PriorityQueue.enqueue (abnormalityQueue st)
         (mkEvent shortness description
                  (Math_round (Math_max (of_Z 25) (Math_min (of_Z 100) severity))))
         severity)
  else st.

(** Check 4: signal quality.  [isNormal] is left as it is. *)
Definition checkSignal (avgRMS avgEnergy : number) (st : ClassifierState) : ClassifierState :=
  if (avgRMS <? MIN_SIGNAL_THRESHOLD) || (avgEnergy <? dec 5 5) then
    mkState (isNormal st)
      (abnormalityScore st + of_Z 15)
      (PriorityQueue.enqueue (abnormalityQueue st)
         (mkEvent noise "Poor signal quality / Environmental noise" (of_Z 35))
         (of_Z 35))
  else st.

(** The number of frames whose energy is more than three times the energy
    of the frame before: [windowFeatures.filter((w, i) => ...).length]. *)
Definition energySpikes (windowFeatures : list WindowFeature) : Z :=
  len (List.filter
         (fun iw : nat * WindowFeature =>
            match fst iw with
            | O => false
            | S j =>
                match windowFeatures !! j with
                | Some prev => energy (snd iw) >? energy prev * of_Z 3
                | None => false
                end
            end)
         (imap pair windowFeatures)).

(** Check 5: energy spikes. *)
Definition checkSpikes (windowFeatures : option (list WindowFeature))
    (st : ClassifierState) : ClassifierState :=
  match windowFeatures with
  | Some ws =>
      if (3 <? len ws)%Z then
        let spikes := energySpikes ws in
        if (1 <? spikes)%Z then
          let severity := Math_min (of_Z 80) (of_Z spikes * of_Z 20) in
          mkState false
            (abnormalityScore st + severity * dec 25 2)
            (PriorityQueue.enqueue (abnormalityQueue st)
               (mkEvent irregular "Sudden energy spikes (cough/gasp pattern)"
                        (Math_round severity))
               severity)
        else st
      else st
  | None => st
  end.

Definition classifyBreathing (featureMap : FeatureMap.t FeatureValue)
    (queue : PriorityQueue.t AbnormalityEvent)
    : Classification * PriorityQueue.t AbnormalityEvent :=
  let avgEnergy := toNumber (FeatureMap.get featureMap "avgEnergy") in
  let avgRMS := toNumber (FeatureMap.get featureMap "avgRMS") in
  let avgZCR := toNumber (FeatureMap.get featureMap "avgZCR") in
  let energyVariance := toNumber (FeatureMap.get featureMap "energyVariance") in
  let breathingRate := toNumber (FeatureMap.get featureMap "breathingRate") in
  let windowFeatures := toFrames (FeatureMap.get featureMap "windowFeatures") in
  let st :=
    checkSpikes windowFeatures
      (checkSignal avgRMS avgEnergy
         (checkRate breathingRate
            (checkVariance energyVariance
               (checkZCR avgZCR (mkState true zero queue))))) in
  let score := abnormalityScore st in
  let stability := Math_max zero (of_Z 100 - energyVariance * of_Z 15000) in
  if isNormal st && (score <? of_Z 20) then
    let isDeepBreathing :=
      (avgRMS >? HIGH_AMPLITUDE_THRESHOLD) && (breathingRate <? of_Z 14) in
    let isSlowBreathing :=
      (avgRMS <? HIGH_AMPLITUDE_THRESHOLD) && (breathingRate <? of_Z 12) in
    (mkClassification normal
       (Some (if isDeepBreathing then deep
              else if isSlowBreathing then slow else regular))
       None
       (Math_round stability)
       (if stability >? of_Z 80 then Good
        else if stability >? of_Z 60 then Moderate else Fair)
       (Math_round (Math_max (of_Z 75) (of_Z 100 - score))),
     abnormalityQueue st)
  else
    let queue' :=
      if PriorityQueue.isEmpty (abnormalityQueue st) && (score >? zero)
      then PriorityQueue.enqueue (abnormalityQueue st)
             (mkEvent irregular "General breathing irregularity"
                      (Math_round (Math_min (of_Z 100) score)))
             score
      else abnormalityQueue st in
    (mkClassification abnormal
       None
       (Some (Math_round (Math_min (of_Z 100) (Math_max (of_Z 30) score))))
       (Math_round stability)
       NeedsAttention
       (Math_round (Math_min (of_Z 95) (score + of_Z 35))),
     queue').

(* ===================================================================== *)
(** ** MAIN ANALYSIS ENGINE *)
(* ===================================================================== *)

Record AnalysisResult := mkResult {
  features : gmap string FeatureValue;
  classification : Classification;
  abnormalities : list (AbnormalityEvent * number);
  windowFeatures : list WindowFeature;
  peaks : list Peak
}.

(** [ws.reduce((sum, w) => sum + f(w), 0) / ws.length] *)
Definition average (f : WindowFeature -> number) (ws : list WindowFeature) : number :=
  foldl (fun sum w => sum + f w) zero ws / of_Z (len ws).

(** Steps 3 and 4 of [analyzeBreathing]: everything after the sliding
    window analysis has returned [windowFeatures].  The snapshot returned
    under [features] is the content of the local map, none of whose eight
    keys is ["__proto__"]; the history entry that [snapshot()] also writes
    is lost with that map. *)
Definition analyzeBreathing_report (audioData : list number) (sampleRate : Z)
    (windowFeatures : list WindowFeature) : AnalysisResult :=
  let featureMap : FeatureMap.t FeatureValue := FeatureMap.constructor in
  let abnormalityQueue : PriorityQueue.t AbnormalityEvent := PriorityQueue.constructor in
  let avgEnergy := average energy windowFeatures in
  let avgRMS := average rms windowFeatures in
  let avgZCR := average zcr windowFeatures in
  let avgDominantFreq := average dominantFreq windowFeatures in
  let energyVariance :=
    average (fun w => Math_pow2 (energy w - avgEnergy)) windowFeatures in
  let envelope := rms <$> windowFeatures in
  let peaks := detectPeaks (Math_fround <$> envelope) (avgRMS * dec 5 1) in
  let durationSeconds := of_Z (len audioData) / of_Z sampleRate in
  let breathingRate :=
    if (1 <? len peaks)%Z
    then (of_Z (len peaks) / durationSeconds) * of_Z 60
    else of_Z 12 in
  let featureMap := FeatureMap.set featureMap "avgEnergy" (FNum avgEnergy) in
  let featureMap := FeatureMap.set featureMap "avgRMS" (FNum avgRMS) in
  let featureMap := FeatureMap.set featureMap "avgZCR" (FNum avgZCR) in
  let featureMap := FeatureMap.set featureMap "avgDominantFreq" (FNum avgDominantFreq) in
  let featureMap := FeatureMap.set featureMap "energyVariance" (FNum energyVariance) in
  let featureMap := FeatureMap.set featureMap "breathingRate" (FNum breathingRate) in
  let featureMap := FeatureMap.set featureMap "peakCount" (FCount (len peaks)) in
  let featureMap := FeatureMap.set featureMap "windowFeatures" (FFrames windowFeatures) in
  let '(classification, abnormalityQueue) :=
    classifyBreathing featureMap abnormalityQueue in
  mkResult (FeatureMap.features featureMap)
           classification
           (PriorityQueue.getAll abnormalityQueue)
           windowFeatures
           peaks.

Section Analysis.

Variables Math_cos Math_sin : number -> number.

(** [analyzeBreathing(audioData, sampleRate)] for an integer sample rate,
    so that [Math.floor(sampleRate * 0.5)] is the integer quotient by 2.
    The result is [None] when the sliding window loop does not end. *)
Definition analyzeBreathing (audioData : list number) (sampleRate : Z)
    : option AnalysisResult :=
  let cleanedSignal := removeNoise audioData default_noiseThreshold in
  let windowSize := (sampleRate / 2)%Z in
  let hopSize := (windowSize / 2)%Z in
  analyzeBreathing_report audioData sampleRate
    <$> slidingWindowAnalysis Math_cos Math_sin cleanedSignal windowSize hopSize
          (of_Z sampleRate).

End Analysis.

(* ===================================================================== *)
(** ** The order on numbers *)
(* ===================================================================== *)

(** Comparison of two numbers reads off a lexicographic key: the class
    (negative, zero, positive, with the infinities outside), then the
    exponent, then the mantissa. *)
Definition key (x : number) : Z * Z * Z :=
  match x with
  | S754_nan => (0, 0, 0)%Z
  | S754_zero _ => (0, 0, 0)%Z
  | S754_infinity true => (-2, 0, 0)%Z
  | S754_infinity false => (2, 0, 0)%Z
  | S754_finite true m e => (-1, - e, Z.neg m)%Z
  | S754_finite false m e => (1, e, Z.pos m)%Z
  end.

Definition key_lt (a b : Z * Z * Z) : Prop :=
  (a.1.1 < b.1.1 \/
   (a.1.1 = b.1.1 /\ (a.1.2 < b.1.2 \/ (a.1.2 = b.1.2 /\ a.2 < b.2))))%Z.

Lemma compare_key (a b : number) :
  isNaN a = false -> isNaN b = false ->
  exists c, SFcompare a b = Some c /\
    match c with
    | Lt => key_lt (key a) (key b)
    | Eq => key a = key b
    | Gt => key_lt (key b) (key a)
    end.
Proof.
  unfold key_lt.
  destruct a as [[]|[]| |[] ma ea], b as [[]|[]| |[] mb eb];
    cbn; try discriminate; intros _ _;
    try (eexists; split; [reflexivity|]; cbn; first [reflexivity | lia]).
  - change (Pos.compare_cont Datatypes.Eq ma mb) with (Pos.compare ma mb).
    destruct (Z.compare_spec ea eb) as [->|H|H];
      [destruct (Pos.compare_spec ma mb) as [->|H|H]|..];
      eexists; (split; [reflexivity|]); cbn; first [reflexivity | lia].
  - change (Pos.compare_cont Datatypes.Eq ma mb) with (Pos.compare ma mb).
    destruct (Z.compare_spec ea eb) as [->|H|H];
      [destruct (Pos.compare_spec ma mb) as [->|H|H]|..];
      eexists; (split; [reflexivity|]); cbn; first [reflexivity | lia].
Qed.

Lemma lt_notNaN (a b : number) : (a <? b) = true -> isNaN a = false /\ isNaN b = false.
Proof. destruct a as [| | |? ? ?], b as [| | |? ? ?]; cbn; auto; discriminate. Qed.

Lemma le_notNaN (a b : number) : (a <=? b) = true -> isNaN a = false /\ isNaN b = false.
Proof. destruct a as [| | |? ? ?], b as [| | |? ? ?]; cbn; auto; discriminate. Qed.

Lemma eq_notNaN (a b : number) : JS.eq a b = true -> isNaN a = false /\ isNaN b = false.
Proof. destruct a as [| | |? ? ?], b as [| | |? ? ?]; cbn; auto; discriminate. Qed.

Lemma key_lt_irrefl (k : Z * Z * Z) : ~ key_lt k k.
Proof. unfold key_lt. lia. Qed.

Lemma key_lt_asym (j k : Z * Z * Z) : key_lt j k -> ~ key_lt k j.
Proof. unfold key_lt. lia. Qed.

Lemma key_lt_trans (i j k : Z * Z * Z) : key_lt i j -> key_lt j k -> key_lt i k.
Proof. unfold key_lt. lia. Qed.

Lemma lt_key (a b : number) :
  (a <? b) = true <-> isNaN a = false /\ isNaN b = false /\ key_lt (key a) (key b).
Proof.
  split.
  - intros H. destruct (lt_notNaN _ _ H) as [Ha Hb]. split; [done|split; [done|]].
    destruct (compare_key a b Ha Hb) as (c & Hc & Hk).
    unfold JS.lt, SFltb in H. rewrite Hc in H. by destruct c.
  - intros (Ha & Hb & Hlt).
    destruct (compare_key a b Ha Hb) as (c & Hc & Hk).
    unfold JS.lt, SFltb. rewrite Hc. destruct c; [|done|].
    + rewrite Hk in Hlt. by apply key_lt_irrefl in Hlt.
    + by apply key_lt_asym in Hlt.
Qed.

Lemma le_key (a b : number) :
  (a <=? b) = true <->
  isNaN a = false /\ isNaN b = false /\ ~ key_lt (key b) (key a).
Proof.
  split.
  - intros H. destruct (le_notNaN _ _ H) as [Ha Hb]. split; [done|split; [done|]].
    destruct (compare_key a b Ha Hb) as (c & Hc & Hk).
    unfold JS.le, SFleb in H. rewrite Hc in H. destruct c; [| |done].
    + rewrite Hk. apply key_lt_irrefl.
    + by apply key_lt_asym.
  - intros (Ha & Hb & Hlt).
    destruct (compare_key a b Ha Hb) as (c & Hc & Hk).
    unfold JS.le, SFleb. rewrite Hc. by destruct c.
Qed.

Lemma eq_key (a b : number) :
  JS.eq a b = true <-> isNaN a = false /\ isNaN b = false /\ key a = key b.
Proof.
  split.
  - intros H. destruct (eq_notNaN _ _ H) as [Ha Hb]. split; [done|split; [done|]].
    destruct (compare_key a b Ha Hb) as (c & Hc & Hk).
    unfold JS.eq, SFeqb in H. rewrite Hc in H. by destruct c.
  - intros (Ha & Hb & Heq).
    destruct (compare_key a b Ha Hb) as (c & Hc & Hk).
    unfold JS.eq, SFeqb. rewrite Hc. destruct c; [done| |];
      rewrite Heq in Hk; by apply key_lt_irrefl in Hk.
Qed.

(** [a > b] and [a < b] exclude each other, and both exclude [a === b]. *)
Lemma gt_not_lt (a b : number) : (a >? b) = true -> (a <? b) = false.
Proof.
  intros H. apply not_true_is_false. intros H'.
  apply lt_key in H as (_ & _ & H). apply lt_key in H' as (_ & _ & H').
  by apply key_lt_asym in H.
Qed.

Lemma lt_not_gt (a b : number) : (a <? b) = true -> (a >? b) = false.
Proof. intros H. by apply (gt_not_lt b a). Qed.

Lemma eq_not_gt (a b : number) : JS.eq a b = true -> (a >? b) = false.
Proof.
  intros H. apply not_true_is_false. intros H'.
  apply eq_key in H as (_ & _ & H). apply lt_key in H' as (_ & _ & H').
  rewrite H in H'. by apply key_lt_irrefl in H'.
Qed.

Lemma NaN_not_gt (a b : number) : isNaN a = true -> (a >? b) = false.
Proof. destruct a, b; cbn; congruence. Qed.

(* ===================================================================== *)
(** ** Noise gate *)
(* ===================================================================== *)

(** A number that a [Float32Array] cell holds without change. *)
Definition is_single (x : number) : Prop := Math_fround x = x.

Lemma removeNoise_length (signal : list number) (thr : number) :
  length (removeNoise signal thr) = length signal.
Proof. unfold removeNoise. apply length_fmap. Qed.

Lemma removeNoise_lookup (signal : list number) (thr : number) (i : nat) (x : number) :
  signal !! i = Some x ->
  removeNoise signal thr !! i
  = Some (if Math_abs x >? thr then Math_fround x else zero).
Proof. intros H. unfold removeNoise. by rewrite list_lookup_fmap, H. Qed.

(** C9 (as amended): with the default threshold 0.02 the gate keeps the
    sample at position [i] (unchanged when it is a single-precision value)
    when its absolute value is strictly greater than 0.02, and outputs 0
    in every other case: when the absolute value is below 0.02, when it is
    equal to 0.02, and when the sample is NaN. *)
Theorem removeNoise_gate (signal : list number) (i : nat) (x : number) :
  signal !! i = Some x ->
  let out := removeNoise signal default_noiseThreshold !! i in
  ((Math_abs x >? default_noiseThreshold) = true ->
     out = Some (Math_fround x) /\ (is_single x -> out = Some x)) /\
  ((Math_abs x <? default_noiseThreshold) = true -> out = Some zero) /\
  (JS.eq (Math_abs x) default_noiseThreshold = true -> out = Some zero) /\
  (isNaN x = true -> out = Some zero).
Proof.
  intros Hx out. unfold out. rewrite (removeNoise_lookup _ _ _ _ Hx).
  split; [|split; [|split]].
  - intros Hgt. rewrite Hgt. split; [done|]. intros Hs. by rewrite Hs.
  - intros Hlt. by rewrite (lt_not_gt _ _ Hlt).
  - intros Heq. by rewrite (eq_not_gt _ _ Heq).
  - intros Hn. rewrite NaN_not_gt; [done|]. by destruct x.
Qed.

Lemma removeNoise_gate_witness :
  removeNoise [dec 2 2; dec 5 1] default_noiseThreshold !! 0%nat = Some zero.
Proof.
  refine (proj1 (proj2 (proj2
    (removeNoise_gate [dec 2 2; dec 5 1] 0 (dec 2 2) _))) _);
    vm_compute; reflexivity.
Defined.

(** The sample 0.02 is not below the threshold, yet the gate zeroes it;
    so it does a NaN sample. *)
Lemma removeNoise_threshold_counterexample :
  ((Math_abs (dec 2 2) <? default_noiseThreshold) = false /\
   JS.eq (Math_abs (dec 2 2)) default_noiseThreshold = true /\
   removeNoise [dec 2 2] default_noiseThreshold !! 0%nat = Some zero /\
   Some zero <> Some (dec 2 2) /\
   Some zero <> Some (Math_fround (dec 2 2))) /\
  ((Math_abs NaN <? default_noiseThreshold) = false /\
   removeNoise [NaN] default_noiseThreshold !! 0%nat = Some zero /\
   Some zero <> Some NaN).
Proof. vm_compute. repeat split; discriminate. Qed.

(** No single-precision sample sits exactly on the default threshold: the
    number 0.02 is not a binary32 value. *)
Lemma single_sample_off_threshold (x : number) :
  is_single x -> JS.eq (Math_abs x) default_noiseThreshold = false.
Proof.
  intros Hs. apply not_true_is_false. intros Heq.
  apply eq_key in Heq as (_ & _ & Hk).
  destruct x as [s|s| |s m e]; try discriminate Hk.
  cbn in Hk. injection Hk as -> ->.
  unfold is_single in Hs. destruct s; vm_compute in Hs; discriminate Hs.
Qed.

(* ===================================================================== *)
(** ** Zero crossing rate of degenerate frames *)
(* ===================================================================== *)

(** C4 (as amended): the division [crossings / (L - 1)] is not guarded.
    An empty frame gives [0 / -1], the zero with a negative sign (equal to
    0 under [===]); a single-sample frame gives [0 / 0], which is NaN. *)
Theorem calculateZCR_degenerate :
  calculateZCR [] = neg_zero /\
  JS.eq (calculateZCR []) zero = true /\
  forall x : number, calculateZCR [x] = NaN /\ isNaN (calculateZCR [x]) = true.
Proof. repeat split. Qed.

Lemma calculateZCR_single_counterexample :
  calculateZCR [of_Z 1] = NaN /\ JS.eq (calculateZCR [of_Z 1]) zero = false.
Proof. split; reflexivity. Qed.

(* ===================================================================== *)
(** ** Circular buffer *)
(* ===================================================================== *)

(** C5 (as amended): the constructor does not reject capacity 0: it
    returns an empty buffer.  Pushing into the zero-capacity buffer is
    accepted too: the sample is dropped, [head] and [tail] become NaN, and
    [toArray()] stays empty. *)
Theorem constructor_zero_capacity (maxLength : Z) :
  (0 <= maxLength)%Z ->
  CircularBuffer.constructor maxLength 0
  = Some (CircularBuffer.mk [] 0 (Some 0%nat) (Some 0%nat) 0) /\
  forall (q : CircularBuffer.t) (v : number),
    CircularBuffer.constructor maxLength 0 = Some q ->
    CircularBuffer.push q v = CircularBuffer.mk [] 0 None None 0 /\
    CircularBuffer.toArray (CircularBuffer.push q v) = [].
Proof.
  intros Hmax.
  assert (CircularBuffer.constructor maxLength 0
          = Some (CircularBuffer.mk [] 0 (Some 0%nat) (Some 0%nat) 0)) as Hnew.
  { unfold CircularBuffer.constructor, Float32Array_new.
    by destruct (Z.ltb_spec maxLength 0); [lia|]. }
  split; [exact Hnew|].
  intros q v Hq. rewrite Hnew in Hq. injection Hq as <-. split; reflexivity.
Qed.

Lemma constructor_zero_capacity_witness :
  CircularBuffer.toArray
    (CircularBuffer.push (CircularBuffer.mk [] 0 (Some 0%nat) (Some 0%nat) 0) (of_Z 1))
  = [].
Proof.
  refine (proj2 (proj2 (constructor_zero_capacity (2 ^ 32 - 1) _) _ (of_Z 1) _)).
  - lia.
  - reflexivity.
Defined.

(** Capacity 0 is rejected under no engine limit, and a push into the
    buffer it gives is accepted. *)
Lemma constructor_zero_counterexample :
  ~ (exists maxLength : Z,
       (0 <= maxLength)%Z /\ CircularBuffer.constructor maxLength 0 = None) /\
  exists q, CircularBuffer.constructor (2 ^ 32 - 1) 0 = Some q /\
            CircularBuffer.size q = 0%nat /\
            CircularBuffer.toArray (CircularBuffer.push q (of_Z 1)) = [].
Proof.
  split.
  - intros (maxLength & Hmax & Hnone).
    unfold CircularBuffer.constructor, Float32Array_new in Hnone.
    by destruct (Z.ltb_spec maxLength 0); [lia|].
  - eexists. repeat split.
Qed.

(* ===================================================================== *)
(** ** Sliding window: which frames are produced *)
(* ===================================================================== *)

(** The offsets [0, hop, 2 hop, ...] strictly below [bound]. *)
Definition frameStarts (bound hop : Z) : list Z :=
  (fun k => k * hop)%Z <$> seqZ 0 ((bound + hop - 1) / hop).

Lemma elem_of_frameStarts (bound hop s : Z) :
  (0 < hop)%Z ->
  s ∈ frameStarts bound hop <-> exists k, (0 <= k /\ s = k * hop /\ s < bound)%Z.
Proof.
  intros Hhop. unfold frameStarts. rewrite list_elem_of_fmap. split.
  - intros (k & -> & Hk). apply elem_of_seqZ in Hk. exists k.
    split; [lia|]. split; [done|].
    assert (k + 1 <= (bound + hop - 1) / hop)%Z as Hle by lia.
    pose proof (Z.mul_div_le (bound + hop - 1) hop Hhop). nia.
  - intros (k & Hk & -> & Hlt). exists k. split; [done|].
    apply elem_of_seqZ. split; [lia|].
    assert (k * hop + hop <= bound + hop - 1)%Z as Hle by lia.
    replace (k * hop + hop)%Z with ((k + 1) * hop)%Z in Hle by lia.
    apply (Z.div_le_mono _ _ hop Hhop) in Hle.
    rewrite Z.div_mul in Hle by lia. lia.
Qed.

Section Frames.

Variables Math_cos Math_sin : number -> number.
Variable signal : list number.
Variables windowSize hopSize : Z.
Variable sampleRate : number.

Let frame := analyzeWindow Math_cos Math_sin signal windowSize sampleRate.
Let bound := (len signal - windowSize)%Z.

Lemma slidingWindow_loop_frames (fuel : nat) (start : Z) (windows : list WindowFeature) :
  (0 < hopSize)%Z ->
  (Z.to_nat (bound - start) < fuel)%nat ->
  slidingWindow_loop Math_cos Math_sin fuel signal windowSize hopSize sampleRate
    start windows
  = Some (windows ++
          (frame <$> ((fun s => start + s)%Z <$> frameStarts (bound - start) hopSize))).
Proof.
  intros Hhop. revert start windows.
  induction fuel as [|fuel IH]; intros start windows Hfuel; [lia|].
  cbn [slidingWindow_loop]. fold bound.
  destruct (Z.ltb_spec start bound) as [Hlt|Hge].
  - rewrite IH by lia. f_equal. rewrite <- app_assoc. f_equal.
    unfold frameStarts.
    replace ((bound - start + hopSize - 1) / hopSize)%Z
      with (1 + (bound - (start + hopSize) + hopSize - 1) / hopSize)%Z.
    2:{ rewrite <- (Z.div_add_l 1 hopSize) by lia. f_equal. lia. }
    pose proof (Z.div_pos (bound - start - 1) hopSize ltac:(lia) Hhop) as Hq.
    replace (bound - (start + hopSize) + hopSize - 1)%Z with (bound - start - 1)%Z by lia.
    rewrite (seqZ_cons 0 (1 + _)) by lia. cbn [fmap list_fmap app].
    fold frame. f_equal; [f_equal; lia|].
    replace (Z.pred (1 + (bound - start - 1) / hopSize))
      with ((bound - start - 1) / hopSize)%Z by lia.
    rewrite <- (fmap_add_seqZ 1 0). rewrite <- !list_fmap_compose.
    apply list_fmap_ext. intros _ k _. cbn. f_equal. lia.
  - unfold frameStarts. rewrite seqZ_nil.
    + cbn. by rewrite app_nil_r.
    + apply Z.lt_succ_r. apply Z.div_lt_upper_bound; lia.
Qed.

Lemma slidingWindowAnalysis_eq :
  (0 < hopSize)%Z ->
  slidingWindowAnalysis Math_cos Math_sin signal windowSize hopSize sampleRate
  = Some (frame <$> frameStarts bound hopSize).
Proof.
  intros Hhop. unfold slidingWindowAnalysis.
  rewrite slidingWindow_loop_frames by (fold bound; lia).
  cbn [app]. rewrite Z.sub_0_r. do 2 f_equal.
  etransitivity; [|apply list_fmap_id]. apply list_fmap_ext. by intros _ k _.
Qed.

(** Without any frame the loop ends at its first test, whatever the hop. *)
Lemma slidingWindowAnalysis_short :
  (len signal <= windowSize)%Z ->
  slidingWindowAnalysis Math_cos Math_sin signal windowSize hopSize sampleRate = Some [].
Proof.
  intros Hle. unfold slidingWindowAnalysis. cbn [slidingWindow_loop].
  by destruct (Z.ltb_spec 0 (len signal - windowSize)); [lia|].
Qed.

End Frames.

Lemma slice_length {A} (l : list A) (s w : Z) :
  (0 <= s)%Z -> (0 <= w)%Z -> (s + w <= len l)%Z ->
  len (slice l s (s + w)) = w.
Proof.
  intros Hs Hw Hle. unfold slice, len in *.
  destruct (Z.ltb_spec s 0); [lia|]. destruct (Z.ltb_spec (s + w) 0); [lia|].
  rewrite length_take, length_drop. lia.
Qed.

(** For positive [windowSize] and [hopSize] the loop ends and yields, in
    offset order, one frame for each offset [0, hop, 2 hop, ...] with
    [start + windowSize < signalLength], each computed from the
    [windowSize] samples from [start] on.  The comparison is strict: the
    full frame that ends exactly at the end of the signal is not produced,
    and a signal of exactly [windowSize] samples gives no frame at all. *)
Lemma slidingWindowAnalysis_frames (Math_cos Math_sin : number -> number)
    (signal : list number) (windowSize hopSize : Z) (sampleRate : number) :
  (0 < windowSize)%Z -> (0 < hopSize)%Z ->
  exists frames,
    slidingWindowAnalysis Math_cos Math_sin signal windowSize hopSize sampleRate
      = Some frames /\
    startSample <$> frames = frameStarts (len signal - windowSize) hopSize /\
    (forall s, s ∈ startSample <$> frames <->
               exists k, (0 <= k /\ s = k * hopSize /\ s + windowSize < len signal)%Z) /\
    Forall (fun f =>
              f = analyzeWindow Math_cos Math_sin signal windowSize sampleRate
                    (startSample f) /\
              len (slice signal (startSample f) (startSample f + windowSize))
                = windowSize) frames /\
    (len signal = windowSize -> frames = []).
Proof.
  intros Hw Hhop. eexists. split; [by apply slidingWindowAnalysis_eq|].
  assert (startSample <$>
            (analyzeWindow Math_cos Math_sin signal windowSize sampleRate
               <$> frameStarts (len signal - windowSize) hopSize)
          = frameStarts (len signal - windowSize) hopSize) as Hstarts.
  { rewrite <- list_fmap_compose.
    etransitivity; [|apply list_fmap_id]. apply list_fmap_ext. by intros _ k _. }
  split; [done|]. split; [|split].
  - intros s. rewrite Hstarts, elem_of_frameStarts by done.
    split; intros (k & ? & ? & ?); exists k; lia.
  - apply Forall_fmap, Forall_forall. intros s Hs. cbn. split; [done|].
    apply elem_of_frameStarts in Hs as (k & Hk & -> & Hlt); [|done].
    apply slice_length; nia.
  - intros Heq. rewrite Heq, Z.sub_diag. unfold frameStarts.
    rewrite seqZ_nil; [done|]. apply Z.lt_succ_r, Z.div_lt_upper_bound; lia.
Qed.

Lemma slidingWindowAnalysis_frames_witness :
  exists frames,
    slidingWindowAnalysis (fun _ => NaN) (fun _ => NaN)
      [of_Z 1; of_Z 2; of_Z 3; of_Z 4; of_Z 5] 2 1 (of_Z 8) = Some frames /\
    startSample <$> frames = [0; 1; 2]%Z.
Proof.
  destruct (slidingWindowAnalysis_frames (fun _ => NaN) (fun _ => NaN)
              [of_Z 1; of_Z 2; of_Z 3; of_Z 4; of_Z 5] 2 1 (of_Z 8))
    as (frames & Hrun & Hstarts & _); [lia|lia|].
  exists frames. split; [exact Hrun|exact Hstarts].
Defined.

(** C3 (the failing input): a signal of exactly [windowSize] samples, here
    four samples with [windowSize = 4] and [hopSize = 2].  The frame at
    offset 0 has [start + windowSize = signalLength] and is a full frame,
    yet the loop test [start < signal.length - windowSize] rejects it and
    no frame is produced. *)
Theorem slidingWindowAnalysis_exact_fit (Math_cos Math_sin : number -> number) :
  slidingWindowAnalysis Math_cos Math_sin [of_Z 1; of_Z 2; of_Z 3; of_Z 4] 4 2 (of_Z 8)
  = Some [].
Proof. reflexivity. Qed.

(* ===================================================================== *)
(** ** Classifier: the breathing type of a normal result *)
(* ===================================================================== *)

(** C10 (as amended): whenever the classifier returns status [normal], the
    breathing type is [deep] if avgRMS > 0.06 and breathingRate < 14;
    otherwise [slow] if avgRMS < 0.06 (strictly) and breathingRate < 12;
    otherwise [regular].  In particular, at avgRMS exactly 0.06 the type
    is [regular], whatever the breathing rate. *)
Theorem classifyBreathing_breathingType (featureMap : FeatureMap.t FeatureValue)
    (queue : PriorityQueue.t AbnormalityEvent) :
  let avgRMS := toNumber (FeatureMap.get featureMap "avgRMS") in
  let breathingRate := toNumber (FeatureMap.get featureMap "breathingRate") in
  let c := fst (classifyBreathing featureMap queue) in
  status c = normal ->
  breathingType c
  = Some (if (avgRMS >? HIGH_AMPLITUDE_THRESHOLD) && (breathingRate <? of_Z 14)
          then deep
          else if (avgRMS <? HIGH_AMPLITUDE_THRESHOLD) && (breathingRate <? of_Z 12)
               then slow else regular) /\
  (JS.eq avgRMS HIGH_AMPLITUDE_THRESHOLD = true -> breathingType c = Some regular).
Proof.
  intros avgRMS breathingRate c. subst c. unfold classifyBreathing.
  fold avgRMS breathingRate.
  match goal with |- context [if ?b then _ else _] =>
    match b with (isNormal _ && _) => destruct b end end;
    cbn [fst status breathingType]; [|discriminate].
  intros _. split; [reflexivity|].
  intros Heq. rewrite (eq_not_gt _ _ Heq). cbn [andb].
  apply eq_key in Heq as (Ha & Hb & Hk).
  destruct (avgRMS <? HIGH_AMPLITUDE_THRESHOLD) eqn:Hlt; [|reflexivity].
  apply lt_key in Hlt as (_ & _ & Hlt). rewrite Hk in Hlt.
  destruct (key_lt_irrefl _ Hlt).
Qed.

(** A feature map as [analyzeBreathing] fills it. *)
Definition featureMap_of (avgEnergy avgRMS avgZCR avgDominantFreq energyVariance
    breathingRate : number) (peakCount : Z) (frames : list WindowFeature)
    : FeatureMap.t FeatureValue :=
  let m := FeatureMap.constructor in
  let m := FeatureMap.set m "avgEnergy" (FNum avgEnergy) in
  let m := FeatureMap.set m "avgRMS" (FNum avgRMS) in
  let m := FeatureMap.set m "avgZCR" (FNum avgZCR) in
  let m := FeatureMap.set m "avgDominantFreq" (FNum avgDominantFreq) in
  let m := FeatureMap.set m "energyVariance" (FNum energyVariance) in
  let m := FeatureMap.set m "breathingRate" (FNum breathingRate) in
  let m := FeatureMap.set m "peakCount" (FCount peakCount) in
  FeatureMap.set m "windowFeatures" (FFrames frames).

(** avgRMS = 0.06, breathingRate = 11, everything else well within the
    normal bounds. *)
Definition featureMap_at_threshold : FeatureMap.t FeatureValue :=
  featureMap_of (dec 36 4) (dec 6 2) (dec 5 2) (of_Z 300) (dec 1 4) (of_Z 11) 0 [].

Lemma classifyBreathing_breathingType_witness :
  breathingType (fst (classifyBreathing featureMap_at_threshold [])) = Some regular.
Proof.
  refine (proj2 (classifyBreathing_breathingType featureMap_at_threshold [] _) _);
    vm_compute; reflexivity.
Defined.

(** At avgRMS = 0.06 and breathingRate = 11 the result is normal and not
    deep, the specification's condition for [slow] holds, and the type is
    [regular]. *)
Lemma classifyBreathing_slow_counterexample :
  let avgRMS := toNumber (FeatureMap.get featureMap_at_threshold "avgRMS") in
  let breathingRate := toNumber (FeatureMap.get featureMap_at_threshold "breathingRate") in
  let c := fst (classifyBreathing featureMap_at_threshold []) in
  status c = normal /\
  (avgRMS >? dec 6 2) = false /\
  (avgRMS <=? dec 6 2) = true /\
  (breathingRate <? of_Z 12) = true /\
  breathingType c = Some regular /\
  breathingType c <> Some slow.
Proof. vm_compute. repeat split; discriminate. Qed.

(* ===================================================================== *)
(** ** Recordings without a single frame *)
(* ===================================================================== *)

Lemma average_nil (f : WindowFeature -> number) : average f [] = NaN.
Proof. reflexivity. Qed.

(** C2 (as amended): when the recording is shorter than one analysis
    window, the pipeline produces an empty sequence of frame features, and
    the aggregate features avgEnergy, avgRMS, avgZCR, avgDominantFreq and
    energyVariance are NaN, not 0: the mean over the empty sequence is not
    guarded, each is the quotient [0 / 0]. *)
Theorem analyzeBreathing_no_frames (Math_cos Math_sin : number -> number)
    (audioData : list number) (sampleRate : Z) :
  (len audioData < sampleRate / 2)%Z ->
  exists r,
    analyzeBreathing Math_cos Math_sin audioData sampleRate = Some r /\
    windowFeatures r = [] /\
    features r !! "avgEnergy" = Some (FNum NaN) /\
    features r !! "avgRMS" = Some (FNum NaN) /\
    features r !! "avgZCR" = Some (FNum NaN) /\
    features r !! "avgDominantFreq" = Some (FNum NaN) /\
    features r !! "energyVariance" = Some (FNum NaN).
Proof.
  intros Hshort. unfold analyzeBreathing.
  rewrite slidingWindowAnalysis_short
    by (unfold len in *; rewrite removeNoise_length; lia).
  eexists. split; [reflexivity|]. repeat split.
Qed.

Lemma analyzeBreathing_no_frames_witness :
  exists r,
    analyzeBreathing (fun _ => NaN) (fun _ => NaN) [dec 5 1; dec 5 1; dec 5 1] 16000
      = Some r /\
    features r !! "avgEnergy" = Some (FNum NaN).
Proof.
  destruct (analyzeBreathing_no_frames (fun _ => NaN) (fun _ => NaN)
              [dec 5 1; dec 5 1; dec 5 1] 16000)
    as (r & Hrun & _ & Henergy & _); [vm_compute; reflexivity|].
  exists r. split; [exact Hrun|exact Henergy].
Defined.

(** For the empty recording avgEnergy is NaN, which is not 0. *)
Lemma analyzeBreathing_empty_counterexample :
  ~ (forall (Math_cos Math_sin : number -> number) (r : AnalysisResult),
       analyzeBreathing Math_cos Math_sin [] 16000 = Some r ->
       JS.eq (toNumber (features r !! "avgEnergy")) zero = true).
Proof.
  intros H. specialize (H (fun _ => NaN) (fun _ => NaN) _ eq_refl).
  vm_compute in H. discriminate H.
Qed.

(* ===================================================================== *)
(** ** Circular buffer: the last [C] samples, oldest first *)
(* ===================================================================== *)

Module CircularBufferProps.
Import CircularBuffer.

(** The state of a buffer of capacity [C] after the samples [xs] have been
    pushed into a fresh one: position [k mod C] holds the [k]-th sample for
    each of the last [count] values of [k]. *)
Record inv (C : nat) (xs : list number) (q : t) : Prop := mkInv {
  inv_size : size q = C;
  inv_length : length (buffer q) = C;
  inv_count : count q = min (length xs) C;
  inv_tail : tail q = Some (length xs mod C)%nat;
  inv_head : head q = Some ((length xs - count q) mod C)%nat;
  inv_cells : forall k : nat,
    (length xs - count q <= k < length xs)%nat ->
    buffer q !! (k mod C)%nat = Math_fround <$> xs !! k
}.

Lemma mod_apart (C k n : nat) :
  (k < n)%nat -> (n - k < C)%nat -> (k mod C)%nat <> (n mod C)%nat.
Proof.
  intros Hlt Hnear Heq.
  pose proof (Nat.div_mod_eq k C) as Hk. pose proof (Nat.div_mod_eq n C) as Hn.
  rewrite Heq in Hk. revert Hk Hn.
  generalize (n mod C)%nat (k / C)%nat (n / C)%nat. intros r b a Hk Hn.
  assert (b < a)%nat as Hba by nia.
  pose proof (Nat.mul_le_mono_l (b + 1) a C ltac:(lia)). lia.
Qed.

Lemma rem_Some (a C : nat) : (1 <= C)%nat -> rem (Some a) C = Some (a mod C)%nat.
Proof. intros H. unfold rem. destruct C; [lia|done]. Qed.

Lemma inv_fresh (C : nat) :
  (1 <= C)%nat -> inv C [] (mk (replicate C zero) C (Some 0%nat) (Some 0%nat) 0).
Proof.
  intros HC. split; cbn [size buffer count tail head length].
  - done.
  - apply length_replicate.
  - lia.
  - by rewrite Nat.Div0.mod_0_l.
  - by rewrite Nat.Div0.mod_0_l.
  - intros k Hk. lia.
Qed.

Lemma inv_push (C : nat) (xs : list number) (q : t) (x : number) :
  (1 <= C)%nat -> inv C xs q -> inv C (xs ++ [x]) (push q x).
Proof.
  intros HC [Hsize Hlen Hcount Htail Hhead Hcells].
  assert (store (buffer q) (tail q) x
          = <[(length xs mod C)%nat := Math_fround x]> (buffer q)) as Hstore
    by (by rewrite Htail).
  assert (rem (succ (tail q)) (size q) = Some (length (xs ++ [x]) mod C)%nat) as Htail'.
  { rewrite Htail, Hsize. cbn [succ fmap option_fmap option_map].
    rewrite rem_Some by done. f_equal. rewrite length_app. cbn [length].
    replace (S (length xs mod C)) with (length xs mod C + 1)%nat by lia.
    by rewrite Nat.Div0.add_mod_idemp_l. }
  assert (forall k : nat,
    (length xs + 1 - min (length xs + 1) C <= k)%nat -> (k < length xs + 1)%nat ->
    <[(length xs mod C)%nat := Math_fround x]> (buffer q) !! (k mod C)%nat
    = Math_fround <$> (xs ++ [x]) !! k) as Hcells'.
  { intros k Hlo Hhi. destruct (decide (k = length xs)) as [->|Hne].
    - rewrite list_lookup_insert_eq
        by (rewrite Hlen; apply Nat.mod_upper_bound; lia).
      by rewrite lookup_app_r, Nat.sub_diag by lia.
    - rewrite list_lookup_insert_ne by (apply not_eq_sym, mod_apart; lia).
      rewrite lookup_app_l by lia. apply Hcells. lia. }
  assert (length (xs ++ [x]) = length xs + 1)%nat as Hsnoc
    by (rewrite length_app; cbn; lia).
  unfold push. rewrite Hstore, Htail', Hsize.
  destruct (Nat.ltb_spec (count q) C) as [Hroom|Hfull];
    split; cbn [size buffer count tail head]; rewrite ?Hsnoc.
  - done.
  - by rewrite length_insert.
  - lia.
  - done.
  - rewrite Hhead. do 2 f_equal. lia.
  - intros k Hk. apply Hcells'; lia.
  - done.
  - by rewrite length_insert.
  - lia.
  - done.
  - rewrite Hhead. cbn [succ fmap option_fmap option_map].
    rewrite rem_Some by done. f_equal.
    replace (S ((length xs - count q) mod C))
      with ((length xs - count q) mod C + 1)%nat by lia.
    rewrite Nat.Div0.add_mod_idemp_l. f_equal. lia.
  - intros k Hk. apply Hcells'; lia.
Qed.

Lemma inv_pushArray (C : nat) (xs : list number) :
  (1 <= C)%nat ->
  inv C xs (pushArray (mk (replicate C zero) C (Some 0%nat) (Some 0%nat) 0) xs).
Proof.
  intros HC. induction xs as [|x xs IH] using rev_ind.
  - by apply inv_fresh.
  - unfold pushArray. rewrite foldl_snoc. by apply inv_push.
Qed.

Lemma inv_toArray (C : nat) (xs : list number) (q : t) :
  (1 <= C)%nat -> inv C xs q ->
  toArray q = Math_fround <$> drop (length xs - C) xs.
Proof.
  intros HC [Hsize Hlen Hcount Htail Hhead Hcells].
  apply list_eq. intros i. unfold toArray.
  rewrite !list_lookup_fmap, lookup_drop.
  destruct (decide (i < count q)%nat) as [Hi|Hi].
  - rewrite lookup_seq_lt by done. cbn [fmap option_fmap option_map Nat.add].
    rewrite Hhead, Hsize. cbn [fmap option_fmap option_map].
    rewrite rem_Some by done. rewrite Nat.Div0.add_mod_idemp_l.
    unfold cell. rewrite Hcells by lia.
    replace (length xs - count q + i)%nat with (length xs - C + i)%nat by lia.
    destruct (lookup_lt_is_Some_2 xs (length xs - C + i)) as [v ->]; [lia|done].
  - rewrite lookup_seq_ge by lia. rewrite lookup_ge_None_2 by lia. done.
Qed.

(** What [toArray()] returns after any sequence of pushes into a fresh
    buffer, with the rounding of the [Float32Array] store left visible. *)
Lemma constructor_Some (maxLength capacity : Z) (q0 : t) :
  constructor maxLength capacity = Some q0 ->
  q0 = mk (replicate (Z.to_nat capacity) zero) (Z.to_nat capacity)
          (Some 0%nat) (Some 0%nat) 0.
Proof.
  unfold constructor, Float32Array_new. intros Hq0.
  destruct (_ || _); [done|]. by injection Hq0 as <-.
Qed.

Lemma toArray_pushArray (maxLength capacity : Z) (q0 : t) (xs : list number) :
  (1 <= capacity)%Z ->
  constructor maxLength capacity = Some q0 ->
  toArray (pushArray q0 xs)
  = Math_fround <$> drop (length xs - Z.to_nat capacity) xs.
Proof.
  intros HC Hq0. rewrite (constructor_Some _ _ _ Hq0).
  apply inv_toArray; [lia|]. apply inv_pushArray. lia.
Qed.

Lemma fmap_fround_single (xs : list number) :
  Forall is_single xs -> Math_fround <$> xs = xs.
Proof.
  induction 1 as [|x xs Hx _ IH]; [done|]. cbn. by rewrite Hx, IH.
Qed.

End CircularBufferProps.

(** C6: for a buffer of capacity [C >= 1] and single-precision samples
    [xs] pushed in order, more of them than [C], [toArray()] has length at
    most [C] (exactly [C]) and is exactly the last [C] pushed values in
    push order, oldest first; and one more push evicts exactly the oldest
    sample: the result is the previous content without its first element,
    followed by the new sample. *)
Theorem toArray_last_pushed (maxLength capacity : Z) (q0 : CircularBuffer.t)
    (xs : list number) :
  (1 <= capacity)%Z ->
  (capacity < len xs)%Z ->
  Forall is_single xs ->
  CircularBuffer.constructor maxLength capacity = Some q0 ->
  let q := CircularBuffer.pushArray q0 xs in
  (len (CircularBuffer.toArray q) <= capacity)%Z /\
  len (CircularBuffer.toArray q) = capacity /\
  CircularBuffer.toArray q = drop (length xs - Z.to_nat capacity) xs /\
  forall v : number, is_single v ->
    CircularBuffer.toArray (CircularBuffer.push q v)
    = drop 1 (CircularBuffer.toArray q) ++ [v].
Proof.
  intros HC Hlen Hxs Hq0 q. unfold len in *.
  assert (CircularBuffer.toArray q = drop (length xs - Z.to_nat capacity) xs) as Hq.
  { unfold q. rewrite (CircularBufferProps.toArray_pushArray maxLength capacity) by done.
    apply CircularBufferProps.fmap_fround_single. by apply Forall_drop. }
  assert (length (CircularBuffer.toArray q) = Z.to_nat capacity) as Hl
    by (rewrite Hq, length_drop; lia).
  split; [lia|]. split; [lia|]. split; [done|].
  intros v Hv.
  change (CircularBuffer.push q v) with (foldl CircularBuffer.push q [v]).
  unfold q, CircularBuffer.pushArray. rewrite <- foldl_app.
  fold (CircularBuffer.pushArray q0 (xs ++ [v])).
  rewrite (CircularBufferProps.toArray_pushArray maxLength capacity) by done.
  rewrite CircularBufferProps.fmap_fround_single
    by (apply Forall_drop, Forall_app; split; [done|by constructor]).
  fold (CircularBuffer.pushArray q0 xs). fold q. rewrite Hq.
  rewrite length_app. cbn [length]. rewrite drop_drop.
  rewrite drop_app_le by lia. f_equal. f_equal. lia.
Qed.

Lemma toArray_last_pushed_witness :
  CircularBuffer.toArray
    (CircularBuffer.pushArray
       (CircularBuffer.mk [zero; zero; zero] 3 (Some 0%nat) (Some 0%nat) 0)
       [of_Z 1; of_Z 2; of_Z 3; of_Z 4; of_Z 5])
  = [of_Z 3; of_Z 4; of_Z 5].
Proof.
  refine (proj1 (proj2 (proj2
    (toArray_last_pushed (2 ^ 32 - 1) 3 _ [of_Z 1; of_Z 2; of_Z 3; of_Z 4; of_Z 5] _ _ _ _)))).
  - lia.
  - vm_compute. reflexivity.
  - repeat constructor.
  - reflexivity.
Defined.

(* ===================================================================== *)
(** ** Priority queue: descending order and stable ties *)
(* ===================================================================== *)

Lemma lt_false_key (a b : number) :
  isNaN a = false -> isNaN b = false -> (a <? b) = false ->
  ~ key_lt (key a) (key b).
Proof.
  intros Ha Hb Hlt Hk. assert ((a <? b) = true) as Ht by (by apply lt_key).
  congruence.
Qed.

(** The key order is total: two keys are ordered or equal. *)
Lemma key_lt_total (j k : Z * Z * Z) : key_lt j k \/ j = k \/ key_lt k j.
Proof.
  destruct j as [[j1 j2] j3], k as [[k1 k2] k3]. unfold key_lt. cbn.
  destruct (Z.lt_total j1 k1) as [?|[->|?]]; [lia| |lia].
  destruct (Z.lt_total j2 k2) as [?|[->|?]]; [lia| |lia].
  destruct (Z.lt_total j3 k3) as [?|[->|?]]; [lia| |lia].
  right. by left.
Qed.

Module PriorityQueueProps.
Import PriorityQueue.

Section Order.
Context {A : Type}.

Abbreviation item := (PriorityQueue.item A).

(** [enqueue] as one recursive insertion. *)
Fixpoint insert (it : item) (items : list item) : list item :=
  match items with
  | [] => [it]
  | x :: rest =>
      if priority it >? priority x then it :: x :: rest
      else x :: insert it rest
  end.

Lemma enqueue_insert (items : list item) (e : A) (p : number) :
  enqueue items e p = insert (mkItem e p) items.
Proof.
  unfold enqueue. generalize (mkItem e p). intros it.
  induction items as [|x rest IH]; [done|]. cbn [scan insert].
  destruct (priority it >? priority x); [done|].
  rewrite <- IH. by destruct (scan it rest).
Qed.

(** [x] stands before [y] in a descending queue. *)
Definition desc (x y : item) : Prop := (priority y <=? priority x) = true.

Definition proper (x : item) : Prop := isNaN (priority x) = false.

(** All insertions of a list, in order, into the empty queue. *)
Definition enqueueAll (ins : list (A * number)) : list item :=
  foldl (fun q x => enqueue q (fst x) (snd x)) constructor ins.

Lemma insert_Forall (P : item -> Prop) (it : item) (items : list item) :
  P it -> Forall P items -> Forall P (insert it items).
Proof.
  intros Hit. induction 1 as [|x rest Hx Hrest IH]; cbn [insert].
  - by repeat constructor.
  - destruct (priority it >? priority x); repeat constructor; done.
Qed.

(** Where the new item goes: after every item it does not exceed, and
    immediately before the first item of strictly lower priority. *)
Lemma insert_place (it : item) (items : list item) :
  exists pre post,
    items = pre ++ post /\
    insert it items = pre ++ it :: post /\
    Forall (fun x => (priority it >? priority x) = false) pre /\
    match post with
    | [] => True
    | y :: _ => (priority it >? priority y) = true
    end.
Proof.
  induction items as [|x rest (pre & post & Hsplit & Hins & Hpre & Hpost)].
  - by exists [], [].
  - cbn [insert]. destruct (priority it >? priority x) eqn:Hgt.
    + by exists [], (x :: rest).
    + exists (x :: pre), post. rewrite Hsplit at 1. rewrite Hins.
      repeat split; [by constructor|done].
Qed.

Lemma insert_sorted (it : item) (items : list item) :
  proper it -> Forall proper items ->
  StronglySorted desc items -> StronglySorted desc (insert it items).
Proof.
  intros Hit Hproper Hsorted.
  induction Hsorted as [|x rest Hrest IH Hx]; cbn [insert].
  - by repeat constructor.
  - apply Forall_cons in Hproper as [Hpx Hprest].
    destruct (priority it >? priority x) eqn:Hgt.
    + apply lt_key in Hgt as (_ & _ & Hgt).
      constructor; [by constructor|]. constructor.
      * apply le_key. repeat split; [done..|]. by apply key_lt_asym.
      * rewrite Forall_forall in Hx, Hprest |- *. intros y Hy.
        specialize (Hx y Hy). apply le_key in Hx as (Hy' & _ & Hx).
        apply le_key. repeat split; [done..|]. intros Hlt.
        apply Hx. by apply (key_lt_trans _ (key (priority it))).
    + constructor; [by apply IH|]. apply insert_Forall; [|done].
      apply le_key. repeat split; [done..|]. by apply lt_false_key.
Qed.

(** Items whose priority equals [p0] keep their order of arrival. *)
Lemma insert_filter (p0 : number) (it : item) (items : list item) :
  proper it -> Forall proper items -> StronglySorted desc items ->
  List.filter (fun x => JS.eq (priority x) p0) (insert it items)
  = List.filter (fun x => JS.eq (priority x) p0) items
    ++ List.filter (fun x => JS.eq (priority x) p0) [it].
Proof.
  intros Hit Hproper Hsorted.
  induction Hsorted as [|x rest Hrest IH Hx]; cbn [insert]; [done|].
  apply Forall_cons in Hproper as [Hpx Hprest].
  destruct (priority it >? priority x) eqn:Hgt.
  - cbn [List.filter app]. destruct (JS.eq (priority it) p0) eqn:Heq.
    2:{ by rewrite app_nil_r. }
    apply lt_key in Hgt as (_ & _ & Hgt). apply eq_key in Heq as (_ & Hp0 & Heq).
    assert (forall y, y ∈ x :: rest -> JS.eq (priority y) p0 = false) as Hnone.
    { intros y Hy. apply not_true_is_false. intros Hyeq.
      apply eq_key in Hyeq as (_ & _ & Hyeq).
      apply elem_of_cons in Hy as [->|Hy].
      - rewrite Hyeq, <- Heq in Hgt. by apply key_lt_irrefl in Hgt.
      - rewrite Forall_forall in Hx. specialize (Hx y Hy).
        apply le_key in Hx as (_ & _ & Hx). apply Hx.
        by rewrite Hyeq, <- Heq. }
    rewrite (Hnone x) by left.
    replace (List.filter (fun x0 => JS.eq (priority x0) p0) rest) with (@nil item).
    + done.
    + symmetry. clear -Hnone. induction rest as [|y rest IH]; [done|].
      cbn [List.filter]. rewrite (Hnone y) by (right; left).
      apply IH. intros z Hz. apply Hnone.
      apply elem_of_cons in Hz as [->|Hz]; [left|right; by right].
  - cbn [List.filter]. rewrite (IH Hprest).
    by destruct (JS.eq (priority x) p0).
Qed.

Lemma enqueueAll_snoc (ins : list (A * number)) (x : A * number) :
  enqueueAll (ins ++ [x]) = insert (mkItem (fst x) (snd x)) (enqueueAll ins).
Proof. unfold enqueueAll. by rewrite foldl_snoc, enqueue_insert. Qed.

Lemma enqueueAll_sorted (ins : list (A * number)) :
  Forall (fun x => isNaN (snd x) = false) ins ->
  Forall proper (enqueueAll ins) /\ StronglySorted desc (enqueueAll ins).
Proof.
  induction ins as [|x ins IH] using rev_ind; intros Hins.
  - split; constructor.
  - apply Forall_app in Hins as [Hins Hx]. rewrite Forall_singleton in Hx.
    destruct (IH Hins) as [Hproper Hsorted]. rewrite enqueueAll_snoc. split.
    + apply insert_Forall; [exact Hx|done].
    + apply insert_sorted; [exact Hx|done..].
Qed.

Lemma enqueueAll_stable (p0 : number) (ins : list (A * number)) :
  Forall (fun x => isNaN (snd x) = false) ins ->
  List.filter (fun x => JS.eq (priority x) p0) (enqueueAll ins)
  = List.filter (fun x => JS.eq (priority x) p0)
      ((fun x => mkItem (fst x) (snd x)) <$> ins).
Proof.
  induction ins as [|x ins IH] using rev_ind; intros Hins; [done|].
  apply Forall_app in Hins as [Hins Hx]. rewrite Forall_singleton in Hx.
  destruct (enqueueAll_sorted ins Hins) as [Hproper Hsorted].
  rewrite enqueueAll_snoc, insert_filter by (done || exact Hx).
  rewrite IH by done. rewrite fmap_app, List.filter_app. done.
Qed.

End Order.
End PriorityQueueProps.

(** C7: after any sequence of (event, priority) insertions with numeric
    priorities (none of them NaN), the items are sorted non-increasing in
    priority; the events of any one priority appear in their insertion
    order; and one more insertion, of any priority, puts the new event
    after all events it does not exceed and immediately before the first
    existing event with strictly lower priority (at the end if there is
    none), leaving the others in place. *)
Theorem enqueue_sorted_stable {A : Type} (ins : list (A * number)) :
  Forall (fun x => isNaN (snd x) = false) ins ->
  let q := PriorityQueueProps.enqueueAll ins in
  StronglySorted (fun x y => (PriorityQueue.priority x >=? PriorityQueue.priority y) = true) q /\
  (forall p0 : number,
     List.filter (fun x => JS.eq (PriorityQueue.priority x) p0) q
     = List.filter (fun x => JS.eq (PriorityQueue.priority x) p0)
         ((fun x => PriorityQueue.mkItem (fst x) (snd x)) <$> ins)) /\
  (forall (e : A) (p : number),
     exists pre post,
       q = pre ++ post /\
       PriorityQueue.enqueue q e p = pre ++ PriorityQueue.mkItem e p :: post /\
       Forall (fun x => (p >? PriorityQueue.priority x) = false) pre /\
       match post with
       | [] => True
       | y :: _ => (p >? PriorityQueue.priority y) = true
       end).
Proof.
  intros Hins q. split; [|split].
  - by apply PriorityQueueProps.enqueueAll_sorted.
  - intros p0. by apply PriorityQueueProps.enqueueAll_stable.
  - intros e p. rewrite PriorityQueueProps.enqueue_insert.
    apply (PriorityQueueProps.insert_place (PriorityQueue.mkItem e p)).
Qed.

Lemma enqueue_sorted_stable_witness :
  List.filter (fun x => JS.eq (PriorityQueue.priority x) (of_Z 5))
    (PriorityQueueProps.enqueueAll [(1%nat, of_Z 5); (2%nat, of_Z 7); (3%nat, of_Z 5)])
  = [PriorityQueue.mkItem 1%nat (of_Z 5); PriorityQueue.mkItem 3%nat (of_Z 5)].
Proof.
  refine (proj1 (proj2
    (enqueue_sorted_stable [(1%nat, of_Z 5); (2%nat, of_Z 7); (3%nat, of_Z 5)] _))
    (of_Z 5)).
  repeat constructor.
Defined.

(* ===================================================================== *)
(** ** Peak detection *)
(* ===================================================================== *)

Module PeakProps.

Section Peaks.
Variable signal : list number.
Variable threshold : number.

Let minDistance : Z := (len signal / 20)%Z.

(** The test that makes position [i] a candidate peak. *)
Definition candidate (i : nat) : bool :=
  (cell signal i >? cell signal (i - 1))
  && (cell signal i >? cell signal (i + 1))
  && (cell signal i >? threshold).

(** An accepted peak sits strictly inside the signal, carries the sample
    at its position, and passed the candidate test. *)
Definition is_peak (p : Peak) : Prop :=
  (1 <= index p)%nat /\ (index p < length signal - 1)%nat /\
  value p = cell signal (index p) /\
  (value p >? cell signal (index p - 1)) = true /\
  (value p >? cell signal (index p + 1)) = true /\
  (value p >? threshold) = true.

(** [q] comes later than [p], more than [minDistance] positions away. *)
Definition apart (p q : Peak) : Prop :=
  (index p < index q)%nat /\
  (minDistance < Z.of_nat (index q) - Z.of_nat (index p))%Z.

(** What holds of the accepted peaks once the positions below [n] have
    been scanned. *)
Definition scanned (n : nat) (peaks : list Peak) : Prop :=
  Forall (fun p => is_peak p /\ (index p < n)%nat) peaks /\
  StronglySorted apart peaks.

Lemma minDistance_nonneg : (0 <= minDistance)%Z.
Proof. unfold minDistance, len. apply Z.div_pos; lia. Qed.

Lemma step_candidate (peaks : list Peak) (i : nat) :
  detectPeaks_step signal threshold minDistance peaks i
  = if candidate i then
      match last peaks with
      | None => peaks ++ [mkPeak i (cell signal i)]
      | Some p =>
          if (minDistance <? Z.of_nat i - Z.of_nat (index p))%Z
          then peaks ++ [mkPeak i (cell signal i)]
          else peaks
      end
    else peaks.
Proof. reflexivity. Qed.

Lemma scanned_weaken (n : nat) (peaks : list Peak) :
  scanned n peaks -> scanned (S n) peaks.
Proof.
  intros [Hall Hsorted]. split; [|done].
  eapply Forall_impl; [exact Hall|]. intros p [? ?]. split; [done|lia].
Qed.

Lemma scanned_accept (n : nat) (peaks : list Peak) :
  (1 <= n)%nat -> (n < length signal - 1)%nat ->
  candidate n = true ->
  (forall p, last peaks = Some p ->
             (minDistance < Z.of_nat n - Z.of_nat (index p))%Z) ->
  scanned n peaks ->
  scanned (S n) (peaks ++ [mkPeak n (cell signal n)]).
Proof.
  intros Hlo Hhi Hcand Hlast Hscanned.
  destruct (scanned_weaken _ _ Hscanned) as [Hall' _].
  destruct Hscanned as [Hall Hsorted]. split.
  - apply Forall_app. split; [done|]. apply Forall_singleton.
    unfold candidate in Hcand. apply andb_prop in Hcand as [Hcand Hthr].
    apply andb_prop in Hcand as [Hleft Hright].
    split; [|cbn; lia]. by repeat split.
  - apply StronglySorted_app. split; [|split; [done|repeat constructor]].
    intros p q Hp Hq. apply list_elem_of_singleton in Hq as ->. cbn.
    pose proof minDistance_nonneg as Hmin.
    rewrite Forall_forall in Hall. destruct (Hall p Hp) as [_ Hpn].
    destruct (last peaks) as [l|] eqn:Hl.
    2:{ apply last_None in Hl. subst peaks. by apply elem_of_nil in Hp. }
    specialize (Hlast l eq_refl). apply last_Some in Hl as [init ->].
    apply elem_of_app in Hp as [Hp|Hp].
    + apply StronglySorted_app in Hsorted as (Hcross & _ & _).
      destruct (Hcross p l Hp) as [Hpl _]; [by left|]. unfold apart. cbn. lia.
    + apply list_elem_of_singleton in Hp as ->. unfold apart. cbn. lia.
Qed.

Lemma scanned_step (n : nat) (peaks : list Peak) :
  (1 <= n)%nat -> (n < length signal - 1)%nat ->
  scanned n peaks ->
  scanned (S n) (detectPeaks_step signal threshold minDistance peaks n).
Proof.
  intros Hlo Hhi Hscanned. rewrite step_candidate.
  destruct (candidate n) eqn:Hcand; [|by apply scanned_weaken].
  destruct (last peaks) as [l|] eqn:Hl.
  - destruct (Z.ltb_spec minDistance (Z.of_nat n - Z.of_nat (index l)));
      [|by apply scanned_weaken].
    apply scanned_accept; try done. rewrite Hl. by intros p [= <-].
  - apply scanned_accept; try done. rewrite Hl. by intros p [=].
Qed.

Lemma scanned_fold (m n : nat) (peaks : list Peak) :
  (1 <= n)%nat -> (m = 0 \/ n + m <= length signal - 1)%nat ->
  scanned n peaks ->
  scanned (n + m)
    (foldl (detectPeaks_step signal threshold minDistance) peaks (seq n m)).
Proof.
  revert n peaks. induction m as [|m IH]; intros n peaks Hlo Hhi Hscanned.
  - by rewrite Nat.add_0_r.
  - cbn [seq foldl]. replace (n + S m)%nat with (S n + m)%nat by lia.
    apply IH; [lia|lia|]. apply scanned_step; [done|lia|done].
Qed.

Lemma detectPeaks_scanned :
  scanned (1 + (length signal - 2)) (detectPeaks signal threshold).
Proof.
  unfold detectPeaks. apply scanned_fold; [done|lia|].
  split; constructor.
Qed.

(** A scan over positions that are no candidates changes nothing. *)
Lemma fold_no_candidate (l : list nat) (peaks : list Peak) :
  (forall i, i ∈ l -> candidate i = false) ->
  foldl (detectPeaks_step signal threshold minDistance) peaks l = peaks.
Proof.
  revert peaks. induction l as [|i l IH]; intros peaks Hnone; [done|].
  cbn [foldl]. rewrite step_candidate, (Hnone i) by left.
  apply IH. intros j Hj. apply Hnone. by right.
Qed.

(** The de-duplication in the words of the specification: scanning the
    candidate positions from left to right, a candidate is accepted when
    no peak has been accepted yet or the most recently accepted one lies
    more than [minDistance] positions before it. *)
Fixpoint accept_greedy (minD : Z) (latest : option nat) (cands : list nat) : list nat :=
  match cands with
  | [] => []
  | i :: rest =>
      if match latest with
         | None => true
         | Some l => (minD <? Z.of_nat i - Z.of_nat l)%Z
         end
      then i :: accept_greedy minD (Some i) rest
      else accept_greedy minD latest rest
  end.

Lemma fold_greedy (l : list nat) (peaks : list Peak) :
  index <$> foldl (detectPeaks_step signal threshold minDistance) peaks l
  = (index <$> peaks)
    ++ accept_greedy minDistance (index <$> last peaks) (List.filter candidate l).
Proof.
  revert peaks. induction l as [|i l IH]; intros peaks.
  - cbn. by rewrite app_nil_r.
  - cbn [foldl List.filter]. rewrite IH, step_candidate.
    destruct (candidate i); [|done]. cbn [accept_greedy].
    destruct (last peaks) as [p|] eqn:Hlast; cbn [fmap option_fmap option_map].
    + destruct (minDistance <? Z.of_nat i - Z.of_nat (index p))%Z.
      * rewrite last_snoc, fmap_app, <- app_assoc. done.
      * by rewrite Hlast.
    + rewrite last_snoc, fmap_app, <- app_assoc. done.
Qed.

Lemma detectPeaks_greedy :
  index <$> detectPeaks signal threshold
  = accept_greedy minDistance None
      (List.filter candidate (seq 1 (length signal - 2))).
Proof. unfold detectPeaks. by rewrite fold_greedy. Qed.

(** The signal rises strictly up to position [k] and falls strictly from
    there on, [k] being strictly inside. *)
Definition unimodal (k : nat) : Prop :=
  (1 <= k)%nat /\ (k + 1 < length signal)%nat /\
  (forall i : nat, (i < k)%nat ->
     (cell signal i <? cell signal (i + 1)) = true) /\
  (forall i : nat, (k <= i)%nat -> (i + 1 < length signal)%nat ->
     (cell signal (i + 1) <? cell signal i) = true).

Lemma detectPeaks_unimodal (k : nat) :
  unimodal k -> (cell signal k >? threshold) = true ->
  detectPeaks signal threshold = [mkPeak k (cell signal k)].
Proof.
  intros (Hlo & Hhi & Hrise & Hfall) Htop. unfold detectPeaks.
  replace (length signal - 2)%nat
    with ((k - 1) + (1 + (length signal - 2 - k)))%nat by lia.
  rewrite seq_app, foldl_app, (seq_app 1 _ (1 + (k - 1))), foldl_app.
  replace (1 + (k - 1))%nat with k by lia. cbn [seq foldl].
  rewrite (fold_no_candidate (seq 1 (k - 1))).
  2:{ intros i Hi. apply elem_of_seq in Hi. unfold candidate.
      rewrite (lt_not_gt _ _ (Hrise i ltac:(lia))).
      by rewrite andb_false_r. }
  rewrite step_candidate.
  assert (candidate k = true) as ->.
  { unfold candidate. rewrite Htop, andb_true_r. apply andb_true_intro. split.
    - pose proof (Hrise (k - 1)%nat ltac:(lia)) as H.
      by replace (k - 1 + 1)%nat with k in H by lia.
    - apply (Hfall k); lia. }
  cbn [last app]. apply fold_no_candidate.
  intros i Hi. apply elem_of_seq in Hi. unfold candidate.
  pose proof (Hfall (i - 1)%nat ltac:(lia) ltac:(lia)) as H.
  replace (i - 1 + 1)%nat with i in H by lia.
  by rewrite (lt_not_gt _ _ H).
Qed.

End Peaks.
End PeakProps.

(** C8: [detectPeaks] returns its peaks in increasing index order, any
    two of them more than [floor(length / 20)] indices apart (so no two
    are closer than that); every peak is at an index [i] with
    [1 <= i < length - 1], carries the sample at [i], and that sample is
    strictly greater than both neighbours and than the threshold; the
    accepted positions are those a greedy left-to-right scan of the
    candidates keeps, each candidate being compared with the most
    recently accepted peak; and a signal that rises strictly to an inner
    position and falls strictly after it, its top above the threshold,
    yields exactly one peak, at the top. *)
Theorem detectPeaks_sound (signal : list number) (threshold : number) :
  let peaks := detectPeaks signal threshold in
  StronglySorted
    (fun p q => (index p < index q)%nat /\
                (len signal / 20 < Z.of_nat (index q) - Z.of_nat (index p))%Z)
    peaks /\
  Forall
    (fun p => (1 <= index p)%nat /\ (index p < length signal - 1)%nat /\
              value p = cell signal (index p) /\
              (value p >? cell signal (index p - 1)) = true /\
              (value p >? cell signal (index p + 1)) = true /\
              (value p >? threshold) = true)
    peaks /\
  index <$> peaks
  = PeakProps.accept_greedy (len signal / 20) None
      (List.filter (PeakProps.candidate signal threshold)
                   (seq 1 (length signal - 2))) /\
  (forall k : nat,
     PeakProps.unimodal signal k ->
     (cell signal k >? threshold) = true ->
     peaks = [mkPeak k (cell signal k)] /\ length peaks = 1%nat).
Proof.
  intros peaks. destruct (PeakProps.detectPeaks_scanned signal threshold)
    as [Hall Hsorted].
  split; [exact Hsorted|]. split; [|split].
  - eapply Forall_impl; [exact Hall|]. by intros p [? _].
  - apply PeakProps.detectPeaks_greedy.
  - intros k Hk Htop. unfold peaks.
    by rewrite (PeakProps.detectPeaks_unimodal signal threshold k).
Qed.

Lemma detectPeaks_sound_witness :
  detectPeaks [of_Z 1; of_Z 2; of_Z 5; of_Z 3; of_Z 2] (dec 1 1)
  = [mkPeak 2 (of_Z 5)].
Proof.
  refine (proj1 (proj2 (proj2 (proj2
    (detectPeaks_sound [of_Z 1; of_Z 2; of_Z 5; of_Z 3; of_Z 2] (dec 1 1))))
    2%nat _ _)).
  - split; [lia|]. split; [cbn; lia|]. split.
    + intros [|[|i]] Hi; [reflexivity..|lia].
    + intros [|[|[|[|i]]]] Hi Hi'; cbn in Hi'; try lia; reflexivity.
  - reflexivity.
Defined.

(* ===================================================================== *)
(** ** The silent recording *)
(* ===================================================================== *)

(** [n] samples, all zero. *)
Definition silence (n : Z) : list number := replicate (Z.to_nat n) zero.

Lemma len_silence (n : Z) : (0 <= n)%Z -> len (silence n) = n.
Proof. intros Hn. unfold len, silence. rewrite length_replicate. lia. Qed.

Lemma removeNoise_silence (n : Z) :
  removeNoise (silence n) default_noiseThreshold = silence n.
Proof. unfold removeNoise, silence. by rewrite fmap_replicate. Qed.

Lemma slice_silence (n s w : Z) :
  (0 <= s)%Z -> (0 <= w)%Z -> (s + w <= n)%Z ->
  slice (silence n) s (s + w) = silence w.
Proof.
  intros Hs Hw Hle. unfold slice. rewrite len_silence by lia. unfold silence.
  destruct (Z.ltb_spec s 0); [lia|]. destruct (Z.ltb_spec (s + w) 0); [lia|].
  rewrite drop_replicate, take_replicate. f_equal. lia.
Qed.

Lemma energy_sum_silence (n : nat) :
  foldl (fun energy x => energy + x * x) zero (replicate n zero) = zero.
Proof. induction n as [|n IH]; [done|]. exact IH. Qed.

Lemma countCrossings_silence (n : nat) (crossings : Z) :
  countCrossings zero (replicate n zero) crossings = crossings.
Proof. revert crossings. induction n as [|n IH]; intros c; [done|]. exact (IH c). Qed.

Lemma calculateEnergy_silence (w : Z) :
  (0 <= w)%Z -> calculateEnergy (silence w) = zero / of_Z w.
Proof.
  intros Hw. unfold calculateEnergy. rewrite len_silence by done.
  unfold silence. by rewrite energy_sum_silence.
Qed.

Lemma calculateZCR_silence (w : Z) :
  (0 <= w)%Z -> calculateZCR (silence w) = zero / of_Z (w - 1).
Proof.
  intros Hw. unfold calculateZCR. rewrite len_silence by done. unfold silence.
  destruct (Z.to_nat w) as [|n]; [done|]. cbn [replicate].
  by rewrite countCrossings_silence.
Qed.

(** The two fields of a frame that come out of the Fourier transform. *)
Definition frame_spectrum (Math_cos Math_sin : number -> number)
    (signal : list number) (windowSize : Z) (sampleRate : number) (start : Z)
    : number * list number :=
  let f := analyzeWindow Math_cos Math_sin signal windowSize sampleRate start in
  (dominantFreq f, fftMagnitudes f).

Lemma analyzeWindow_silence (Math_cos Math_sin : number -> number)
    (n w : Z) (sampleRate : number) (s : Z) :
  (0 <= s)%Z -> (0 <= w)%Z -> (s + w <= n)%Z ->
  analyzeWindow Math_cos Math_sin (silence n) w sampleRate s
  = let sp := frame_spectrum Math_cos Math_sin (silence n) w sampleRate s in
    mkWindow s (zero / of_Z w) (Math_sqrt (zero / of_Z w)) (zero / of_Z (w - 1))
             (fst sp) (snd sp) (of_Z s / sampleRate).
Proof.
  intros Hs Hw Hle.
  rewrite <- (calculateEnergy_silence w), <- (calculateZCR_silence w) by done.
  rewrite <- (slice_silence n s w) by done. reflexivity.
Qed.

(** The report for the silent recording of 8 seconds at 16 kHz. *)
Definition silent_report (r : AnalysisResult) : Prop :=
  length (windowFeatures r) = 30%nat /\
  features r !! "avgEnergy" = Some (FNum zero) /\
  features r !! "avgRMS" = Some (FNum zero) /\
  peaks r = [] /\
  features r !! "breathingRate" = Some (FNum (of_Z 12)) /\
  abnormalities r
  = [(mkEvent noise "Poor signal quality / Environmental noise" (of_Z 35),
      of_Z 35)] /\
  status (classification r) = normal /\
  breathingType (classification r) = Some regular.

Lemma analyzeBreathing_silence_eval (Math_cos Math_sin : number -> number) :
  exists r,
    analyzeBreathing Math_cos Math_sin (silence 128000) 16000 = Some r /\
    silent_report r.
Proof.
  unfold analyzeBreathing. rewrite removeNoise_silence.
  change (16000 / 2)%Z with 8000%Z. change (8000 / 2)%Z with 4000%Z.
  rewrite slidingWindowAnalysis_eq by lia. rewrite len_silence by lia.
  let l := eval vm_compute in (frameStarts (128000 - 8000) 4000) in
  change (frameStarts (128000 - 8000) 4000) with l.
  cbn [fmap option_fmap option_map list_fmap].
  rewrite !analyzeWindow_silence by lia.
  generalize (frame_spectrum Math_cos Math_sin (silence 128000) 8000 (of_Z 16000)).
  intros spectrum. eexists. split; [reflexivity|].
  unfold silent_report, analyzeBreathing_report. rewrite len_silence by lia.
  vm_compute. repeat split.
Qed.

(** C1 (as amended): for the all-zero recording of 8 seconds at 16 kHz
    (128000 samples, 30 frames) [analyzeBreathing] yields avgEnergy = 0 and
    avgRMS = 0; no peak is found and breathingRate falls back to 12; the
    signal-quality check triggers and its noise event, severity 35, is the
    only abnormality reported.  That check adds 15 to the score, which
    stays below 20, and leaves [isNormal] as it is, so the classification
    status is [normal] (breathing type [regular]). *)
Theorem analyzeBreathing_silence (Math_cos Math_sin : number -> number) :
  exists r,
    analyzeBreathing Math_cos Math_sin (silence 128000) 16000 = Some r /\
    length (windowFeatures r) = 30%nat /\
    features r !! "avgEnergy" = Some (FNum zero) /\
    features r !! "avgRMS" = Some (FNum zero) /\
    peaks r = [] /\
    features r !! "breathingRate" = Some (FNum (of_Z 12)) /\
    abnormalities r
    = [(mkEvent noise "Poor signal quality / Environmental noise" (of_Z 35),
        of_Z 35)] /\
    status (classification r) = normal /\
    breathingType (classification r) = Some regular.
Proof.
  destruct (analyzeBreathing_silence_eval Math_cos Math_sin) as (r & Hr & Hreport).
  exists r. split; [exact Hr|exact Hreport].
Qed.

(** The specification expects [abnormal] for the silent recording; the engine
    answers [normal]. *)
Lemma analyzeBreathing_silence_counterexample :
  ~ (forall (Math_cos Math_sin : number -> number) (r : AnalysisResult),
       analyzeBreathing Math_cos Math_sin (silence 128000) 16000 = Some r ->
       status (classification r) = abnormal).
Proof.
  intros H.
  destruct (analyzeBreathing_silence_eval (fun _ => NaN) (fun _ => NaN))
    as (r & Hr & _ & _ & _ & _ & _ & _ & Hstatus & _).
  specialize (H _ _ r Hr). congruence.
Qed.

(* ===================================================================== *)
(** ** Circular buffer: any samples, below capacity, and [clear] *)
(* ===================================================================== *)

Module CircularBufferReset.
Import CircularBuffer CircularBufferProps.

(** [clear()] keeps the backing store and the capacity, and the cleared
    buffer is in the state of a fresh one. *)
Lemma inv_clear (C : nat) (xs : list number) (q : t) :
  (1 <= C)%nat -> inv C xs q -> inv C [] (clear q).
Proof.
  intros HC [Hsize Hlen _ _ _ _].
  split; cbn [clear size buffer count tail head length].
  - done.
  - done.
  - lia.
  - by rewrite Nat.Div0.mod_0_l.
  - by rewrite Nat.Div0.mod_0_l.
  - intros k Hk. lia.
Qed.

Lemma inv_pushArray_from (C : nat) (q : t) (xs : list number) :
  (1 <= C)%nat -> inv C [] q -> inv C xs (pushArray q xs).
Proof.
  intros HC Hq. induction xs as [|x xs IH] using rev_ind; [done|].
  unfold pushArray. rewrite foldl_snoc. by apply inv_push.
Qed.

End CircularBufferReset.

(** X1: after any sequence of numbers has been pushed into a fresh buffer
    of capacity [C >= 1], [toArray()] is the last [min(n, C)] of them in
    push order, each rounded to single precision by the store; its length
    is [min(n, C)], which is also [count].  Up to capacity nothing is
    evicted: all pushed values are returned. *)
Theorem toArray_after_pushes (maxLength capacity : Z) (q0 : CircularBuffer.t)
    (xs : list number) :
  (1 <= capacity)%Z ->
  CircularBuffer.constructor maxLength capacity = Some q0 ->
  let q := CircularBuffer.pushArray q0 xs in
  CircularBuffer.toArray q
  = Math_fround <$> drop (length xs - Z.to_nat capacity) xs /\
  len (CircularBuffer.toArray q) = Z.min (len xs) capacity /\
  Z.of_nat (CircularBuffer.count q) = Z.min (len xs) capacity /\
  ((len xs <= capacity)%Z -> CircularBuffer.toArray q = Math_fround <$> xs).
Proof.
  intros HC Hq0 q.
  pose proof (CircularBufferProps.toArray_pushArray maxLength capacity q0 xs HC Hq0) as Hq.
  fold q in Hq.
  assert (CircularBufferProps.inv (Z.to_nat capacity) xs q) as Hinv.
  { unfold q. rewrite (CircularBufferProps.constructor_Some maxLength capacity q0) by done.
    apply CircularBufferProps.inv_pushArray. lia. }
  split; [exact Hq|]. unfold len. split; [|split].
  - rewrite Hq, length_fmap, length_drop. lia.
  - rewrite (CircularBufferProps.inv_count _ _ _ Hinv). lia.
  - intros Hle. rewrite Hq. f_equal.
    replace (length xs - Z.to_nat capacity)%nat with 0%nat by lia. done.
Qed.

Lemma toArray_after_pushes_witness :
  CircularBuffer.toArray
    (CircularBuffer.pushArray
       (CircularBuffer.mk [zero; zero; zero] 3 (Some 0%nat) (Some 0%nat) 0)
       [dec 1 1; dec 2 1])
  = [Math_fround (dec 1 1); Math_fround (dec 2 1)].
Proof.
  refine (proj2 (proj2 (proj2
    (toArray_after_pushes (2 ^ 32 - 1) 3 _ [dec 1 1; dec 2 1] _ _))) _).
  - lia.
  - reflexivity.
  - vm_compute. discriminate.
Defined.

(** X2: [clear()] empties the buffer, and a cleared buffer behaves as a
    fresh one: whatever was pushed before the [clear()] never shows up
    again, and [toArray()] after further pushes is the last [min(n, C)] of
    the samples pushed since, in push order. *)
Theorem clear_resets (maxLength capacity : Z) (q0 : CircularBuffer.t)
    (xs ys : list number) :
  (1 <= capacity)%Z ->
  CircularBuffer.constructor maxLength capacity = Some q0 ->
  let q := CircularBuffer.clear (CircularBuffer.pushArray q0 xs) in
  CircularBuffer.toArray q = [] /\
  CircularBuffer.size q = Z.to_nat capacity /\
  CircularBuffer.toArray (CircularBuffer.pushArray q ys)
  = Math_fround <$> drop (length ys - Z.to_nat capacity) ys.
Proof.
  intros HC Hq0 q.
  assert (CircularBufferProps.inv (Z.to_nat capacity) [] q) as Hinv.
  { unfold q. rewrite (CircularBufferProps.constructor_Some maxLength capacity q0) by done.
    apply (CircularBufferReset.inv_clear _ xs); [lia|].
    apply CircularBufferProps.inv_pushArray. lia. }
  split; [reflexivity|]. split.
  - apply (CircularBufferProps.inv_size _ _ _ Hinv).
  - apply CircularBufferProps.inv_toArray; [lia|].
    apply CircularBufferReset.inv_pushArray_from; [lia|done].
Qed.

Lemma clear_resets_witness :
  CircularBuffer.toArray
    (CircularBuffer.pushArray
       (CircularBuffer.clear
          (CircularBuffer.pushArray
             (CircularBuffer.mk [zero; zero] 2 (Some 0%nat) (Some 0%nat) 0)
             [of_Z 1; of_Z 2; of_Z 3]))
       [of_Z 7])
  = [of_Z 7].
Proof.
  refine (proj2 (proj2
    (clear_resets (2 ^ 32 - 1) 2 _ [of_Z 1; of_Z 2; of_Z 3] [of_Z 7] _ _)));
    [lia|reflexivity].
Defined.

(* ===================================================================== *)
(** ** Feature map: lookups after updates *)
(* ===================================================================== *)


(* ===================================================================== *)
(** ** Priority queue: contents, the front item, NaN priorities *)
(* ===================================================================== *)

Module PriorityQueueContents.
Import PriorityQueue PriorityQueueProps.

Section Contents.
Context {A : Type}.

Abbreviation item := (PriorityQueue.item A).

Lemma insert_perm (it : item) (items : list item) :
  insert it items ≡ₚ it :: items.
Proof.
  induction items as [|x rest IH]; cbn [insert]; [done|].
  destruct (priority it >? priority x); [done|].
  rewrite IH. apply Permutation_swap.
Qed.

Lemma enqueueAll_perm (ins : list (A * number)) :
  enqueueAll ins ≡ₚ (fun x => mkItem (fst x) (snd x)) <$> ins.
Proof.
  induction ins as [|x ins IH] using rev_ind; [done|].
  rewrite enqueueAll_snoc, insert_perm, IH, fmap_app. cbn [fmap list_fmap].
  by rewrite Permutation_cons_append.
Qed.

Lemma eq_refl_number (p : number) : isNaN p = false -> JS.eq p p = true.
Proof. intros Hp. by apply eq_key. Qed.

End Contents.
End PriorityQueueContents.

(** X4: [enqueue] neither loses nor duplicates anything, whatever the
    priorities (NaN included): the queue after one [enqueue] is a
    permutation of the old items plus the new one and is not empty, and
    the queue built by a sequence of insertions is a permutation of the
    inserted items, of the same length. *)
Theorem enqueue_keeps_items {A : Type} (ins : list (A * number))
    (items : PriorityQueue.t A) (e : A) (p : number) :
  PriorityQueue.enqueue items e p ≡ₚ PriorityQueue.mkItem e p :: items /\
  PriorityQueue.isEmpty (PriorityQueue.enqueue items e p) = false /\
  PriorityQueueProps.enqueueAll ins
    ≡ₚ (fun x => PriorityQueue.mkItem (fst x) (snd x)) <$> ins /\
  length (PriorityQueueProps.enqueueAll ins) = length ins.
Proof.
  assert (PriorityQueue.enqueue items e p ≡ₚ PriorityQueue.mkItem e p :: items)
    as Hperm.
  { rewrite PriorityQueueProps.enqueue_insert.
    apply PriorityQueueContents.insert_perm. }
  split; [exact Hperm|]. split; [|split].
  - apply Permutation_length in Hperm.
    by destruct (PriorityQueue.enqueue items e p).
  - apply PriorityQueueContents.enqueueAll_perm.
  - rewrite (Permutation_length (PriorityQueueContents.enqueueAll_perm ins)).
    apply length_fmap.
Qed.

(** X5: after insertions with numeric priorities, [peek()] and
    [dequeue()] return an item whose priority is at least that of every
    inserted item; among the items of that highest priority it is the one
    inserted first; what [dequeue()] leaves is the rest, still in
    descending order.  On an empty queue both return [undefined] and the
    queue stays empty. *)
Theorem dequeue_highest_first {A : Type} (ins : list (A * number)) :
  Forall (fun x => isNaN (snd x) = false) ins ->
  let q := PriorityQueueProps.enqueueAll ins in
  match PriorityQueue.dequeue q with
  | (None, rest) => ins = [] /\ rest = [] /\ PriorityQueue.peek q = None
  | (Some x, rest) =>
      PriorityQueue.peek q = Some x /\
      q = x :: rest /\
      (forall y, y ∈ ins -> (snd y <=? PriorityQueue.priority x) = true) /\
      head (List.filter
              (fun y => JS.eq (PriorityQueue.priority y) (PriorityQueue.priority x))
              ((fun y => PriorityQueue.mkItem (fst y) (snd y)) <$> ins))
      = Some x /\
      StronglySorted
        (fun y z => (PriorityQueue.priority y >=? PriorityQueue.priority z) = true)
        rest
  end.
Proof.
  intros Hins q.
  destruct (PriorityQueueProps.enqueueAll_sorted ins Hins) as [Hproper Hsorted].
  pose proof (PriorityQueueContents.enqueueAll_perm ins) as Hperm.
  fold q in Hproper, Hsorted, Hperm.
  destruct q as [|x rest] eqn:Hq; cbn [PriorityQueue.dequeue].
  - split; [|by split]. apply Permutation_nil_l in Hperm.
    symmetry in Hperm. by apply fmap_nil_inv in Hperm.
  - apply StronglySorted_cons in Hsorted as [Hx Hrest].
    apply Forall_cons in Hproper as [Hpx Hprest].
    split; [done|]. split; [done|]. split; [|split; [|exact Hrest]].
    + intros y Hy.
      assert (PriorityQueue.mkItem (fst y) (snd y) ∈ x :: rest) as Hin.
      { rewrite Hperm. apply list_elem_of_fmap. by exists y. }
      apply elem_of_cons in Hin as [<-|Hin].
      * cbn. apply le_key. rewrite Forall_forall in Hins.
        repeat split; [by apply Hins..|]. apply key_lt_irrefl.
      * rewrite Forall_forall in Hx. apply (Hx _ Hin).
    + rewrite <- (PriorityQueueProps.enqueueAll_stable _ ins Hins).
      fold q. rewrite Hq. cbn [List.filter].
      by rewrite (PriorityQueueContents.eq_refl_number _ Hpx).
Qed.

Lemma dequeue_highest_first_witness :
  PriorityQueue.peek
    (PriorityQueueProps.enqueueAll [(1%nat, of_Z 5); (2%nat, of_Z 7); (3%nat, of_Z 7)])
  = Some (PriorityQueue.mkItem 2%nat (of_Z 7)).
Proof.
  refine (proj1
    (dequeue_highest_first [(1%nat, of_Z 5); (2%nat, of_Z 7); (3%nat, of_Z 7)] _)).
  repeat constructor.
Defined.

(** X6: an event whose priority is NaN is always put at the very end of
    the queue, whatever the queue holds; and the scan of a later
    [enqueue] never stops at an event of priority NaN: a new event that
    exceeds none of the items in front of such an event is placed
    somewhere behind it, never directly in front of it. *)
Theorem enqueue_NaN_last {A : Type} (items : PriorityQueue.t A) (e : A) :
  PriorityQueue.enqueue items e NaN = items ++ [PriorityQueue.mkItem e NaN] /\
  forall (post : PriorityQueue.t A) (e' : A) (p : number),
    Forall (fun x => (p >? PriorityQueue.priority x) = false) items ->
    PriorityQueue.enqueue (items ++ PriorityQueue.mkItem e NaN :: post) e' p
    = items ++ PriorityQueue.mkItem e NaN :: PriorityQueue.enqueue post e' p.
Proof.
  split.
  - rewrite PriorityQueueProps.enqueue_insert.
    induction items as [|x rest IH]; [done|].
    cbn [PriorityQueueProps.insert PriorityQueue.priority].
    replace (NaN >? PriorityQueue.priority x) with false
      by (by destruct (PriorityQueue.priority x)).
    by rewrite IH.
  - intros post e' p Hall. rewrite !PriorityQueueProps.enqueue_insert.
    induction Hall as [|x rest Hx Hrest IH].
    + cbn [app PriorityQueueProps.insert PriorityQueue.priority].
      replace (p >? NaN) with false by (by destruct p). done.
    + cbn [app PriorityQueueProps.insert PriorityQueue.priority] in *.
      by rewrite Hx, IH.
Qed.

Lemma enqueue_NaN_last_witness :
  PriorityQueue.enqueue
    ([PriorityQueue.mkItem 1%nat (of_Z 9)]
       ++ PriorityQueue.mkItem 2%nat NaN :: [PriorityQueue.mkItem 4%nat (of_Z 3)])
    3%nat (of_Z 5)
  = [PriorityQueue.mkItem 1%nat (of_Z 9)]
    ++ PriorityQueue.mkItem 2%nat NaN
       :: PriorityQueue.enqueue [PriorityQueue.mkItem 4%nat (of_Z 3)] 3%nat (of_Z 5).
Proof.
  refine (proj2 (enqueue_NaN_last [PriorityQueue.mkItem 1%nat (of_Z 9)] 2%nat)
            [PriorityQueue.mkItem 4%nat (of_Z 3)] 3%nat (of_Z 5) _).
  repeat constructor.
Defined.

(* ===================================================================== *)
(** ** Classifier: what decides the status, and what ends up in the queue *)
(* ===================================================================== *)

Module ClassifierProps.

(** A numeric feature and the frames as [classifyBreathing] reads them. *)
Definition feature (fm : FeatureMap.t FeatureValue) (key : string) : number :=
  toNumber (FeatureMap.get fm key).

Definition frames (fm : FeatureMap.t FeatureValue) : option (list WindowFeature) :=
  toFrames (FeatureMap.get fm "windowFeatures").

(** The conditions of the five checks. *)
Definition zcrHigh (fm : FeatureMap.t FeatureValue) : bool :=
  feature fm "avgZCR" >? NORMAL_ZCR_MAX.

Definition varianceHigh (fm : FeatureMap.t FeatureValue) : bool :=
  feature fm "energyVariance" >? NORMAL_VARIANCE_MAX.

Definition rateOff (fm : FeatureMap.t FeatureValue) : bool :=
  (feature fm "breathingRate" <? NORMAL_BREATHING_RATE_MIN)
  || (feature fm "breathingRate" >? NORMAL_BREATHING_RATE_MAX).

Definition signalPoor (fm : FeatureMap.t FeatureValue) : bool :=
  (feature fm "avgRMS" <? MIN_SIGNAL_THRESHOLD)
  || (feature fm "avgEnergy" <? dec 5 5).

Definition spiky (fm : FeatureMap.t FeatureValue) : bool :=
  match frames fm with
  | Some ws => (3 <? len ws)%Z && (1 <? energySpikes ws)%Z
  | None => false
  end.

(** The state after the five checks. *)
Definition checks (fm : FeatureMap.t FeatureValue)
    (queue : PriorityQueue.t AbnormalityEvent) : ClassifierState :=
  checkSpikes (frames fm)
    (checkSignal (feature fm "avgRMS") (feature fm "avgEnergy")
       (checkRate (feature fm "breathingRate")
          (checkVariance (feature fm "energyVariance")
             (checkZCR (feature fm "avgZCR") (mkState true zero queue))))).

(** The events the five checks enqueue. *)
Definition zcrEvent (fm : FeatureMap.t FeatureValue) : AbnormalityEvent * number :=
  let severity :=
    Math_min (of_Z 100)
      (((feature fm "avgZCR" - NORMAL_ZCR_MAX) / NORMAL_ZCR_MAX) * of_Z 100) in
  (mkEvent wheezing "Wheezing pattern detected (high frequency)"
           (Math_round (Math_max (of_Z 35) severity)), severity).

Definition varianceEvent (fm : FeatureMap.t FeatureValue) : AbnormalityEvent * number :=
  let severity :=
    Math_min (of_Z 100)
      (((feature fm "energyVariance" - NORMAL_VARIANCE_MAX) / NORMAL_VARIANCE_MAX)
         * of_Z 80) in
  (mkEvent irregular "Irregular breathing rhythm detected"
           (Math_round (Math_max (of_Z 30) severity)), severity).

Definition rateEvent (fm : FeatureMap.t FeatureValue) : AbnormalityEvent * number :=
  let rate := feature fm "breathingRate" in
  let '(severity, text) :=
    if rate <? NORMAL_BREATHING_RATE_MIN
    then (((NORMAL_BREATHING_RATE_MIN - rate) / NORMAL_BREATHING_RATE_MIN) * of_Z 70,
          "Slow breathing rate (Bradypnea)"%string)
    else (((rate - NORMAL_BREATHING_RATE_MAX) / NORMAL_BREATHING_RATE_MAX) * of_Z 80,
          "Rapid breathing rate (Tachypnea)"%string) in
  (mkEvent shortness text
           (Math_round (Math_max (of_Z 25) (Math_min (of_Z 100) severity))),
   severity).

Definition signalEvent : AbnormalityEvent * number :=
  (mkEvent noise "Poor signal quality / Environmental noise" (of_Z 35), of_Z 35).

Definition spikesEvent (fm : FeatureMap.t FeatureValue) : AbnormalityEvent * number :=
  let spikes := match frames fm with Some ws => energySpikes ws | None => 0%Z end in
  let severity := Math_min (of_Z 80) (of_Z spikes * of_Z 20) in
  (mkEvent irregular "Sudden energy spikes (cough/gasp pattern)"
           (Math_round severity), severity).

(** One check as a step on the state: nothing happens, or one event is
    enqueued; [flips] tells whether the check sets [isNormal] to false. *)
Definition fires (trigger flips : bool) (ev : AbnormalityEvent * number)
    (st st' : ClassifierState) : Prop :=
  if trigger
  then abnormalityQueue st'
       = PriorityQueue.enqueue (abnormalityQueue st) (fst ev) (snd ev) /\
       isNormal st' = (if flips then false else isNormal st)
  else st' = st.

Lemma checkZCR_fires (fm : FeatureMap.t FeatureValue) (st : ClassifierState) :
  fires (zcrHigh fm) true (zcrEvent fm) st (checkZCR (feature fm "avgZCR") st).
Proof.
  unfold fires, zcrHigh, checkZCR. by destruct (feature fm "avgZCR" >? NORMAL_ZCR_MAX).
Qed.

Lemma checkVariance_fires (fm : FeatureMap.t FeatureValue) (st : ClassifierState) :
  fires (varianceHigh fm) true (varianceEvent fm) st
        (checkVariance (feature fm "energyVariance") st).
Proof.
  unfold fires, varianceHigh, checkVariance.
  by destruct (feature fm "energyVariance" >? NORMAL_VARIANCE_MAX).
Qed.

Lemma checkRate_fires (fm : FeatureMap.t FeatureValue) (st : ClassifierState) :
  fires (rateOff fm) true (rateEvent fm) st
        (checkRate (feature fm "breathingRate") st).
Proof.
  unfold fires, rateOff, checkRate, rateEvent.
  destruct (feature fm "breathingRate" <? NORMAL_BREATHING_RATE_MIN);
    cbn [orb]; [done|].
  by destruct (feature fm "breathingRate" >? NORMAL_BREATHING_RATE_MAX).
Qed.

Lemma checkSignal_fires (fm : FeatureMap.t FeatureValue) (st : ClassifierState) :
  fires (signalPoor fm) false signalEvent st
        (checkSignal (feature fm "avgRMS") (feature fm "avgEnergy") st).
Proof.
  unfold fires, signalPoor, checkSignal.
  by destruct ((feature fm "avgRMS" <? MIN_SIGNAL_THRESHOLD)
               || (feature fm "avgEnergy" <? dec 5 5)).
Qed.

Lemma checkSpikes_fires (fm : FeatureMap.t FeatureValue) (st : ClassifierState) :
  fires (spiky fm) true (spikesEvent fm) st (checkSpikes (frames fm) st).
Proof.
  unfold fires, spiky, checkSpikes, spikesEvent.
  destruct (frames fm) as [ws|]; [|done].
  destruct (3 <? len ws)%Z; cbn [andb]; [|done].
  by destruct (1 <? energySpikes ws)%Z.
Qed.

Lemma checkSignal_score (fm : FeatureMap.t FeatureValue) (st : ClassifierState) :
  abnormalityScore (checkSignal (feature fm "avgRMS") (feature fm "avgEnergy") st)
  = if signalPoor fm then abnormalityScore st + of_Z 15 else abnormalityScore st.
Proof.
  unfold signalPoor, checkSignal.
  by destruct ((feature fm "avgRMS" <? MIN_SIGNAL_THRESHOLD)
               || (feature fm "avgEnergy" <? dec 5 5)).
Qed.

Lemma fires_isNormal (trigger flips : bool) (ev : AbnormalityEvent * number)
    (st st' : ClassifierState) :
  fires trigger flips ev st st' ->
  isNormal st' = isNormal st && negb (trigger && flips).
Proof.
  unfold fires. destruct trigger, flips; cbn [andb negb].
  - intros [_ ->]. by rewrite andb_false_r.
  - intros [_ ->]. by rewrite andb_true_r.
  - intros ->. by rewrite andb_true_r.
  - intros ->. by rewrite andb_true_r.
Qed.

(** [isNormal] survives the checks exactly when none of the four checks
    that clear it fires. *)
Lemma checks_isNormal (fm : FeatureMap.t FeatureValue)
    (queue : PriorityQueue.t AbnormalityEvent) :
  isNormal (checks fm queue)
  = negb (zcrHigh fm || varianceHigh fm || rateOff fm || spiky fm).
Proof.
  unfold checks.
  rewrite (fires_isNormal _ _ _ _ _ (checkSpikes_fires fm _)).
  rewrite (fires_isNormal _ _ _ _ _ (checkSignal_fires fm _)).
  rewrite (fires_isNormal _ _ _ _ _ (checkRate_fires fm _)).
  rewrite (fires_isNormal _ _ _ _ _ (checkVariance_fires fm _)).
  rewrite (fires_isNormal _ _ _ _ _ (checkZCR_fires fm _)).
  cbn [isNormal].
  by destruct (zcrHigh fm), (varianceHigh fm), (rateOff fm), (signalPoor fm), (spiky fm).
Qed.

(** While [isNormal] holds, only the signal check can have added to the
    score, so the score is 0 or 15 and stays below 20. *)
Lemma checks_score (fm : FeatureMap.t FeatureValue)
    (queue : PriorityQueue.t AbnormalityEvent) :
  isNormal (checks fm queue) = true ->
  checks fm queue
  = checkSignal (feature fm "avgRMS") (feature fm "avgEnergy")
      (mkState true zero queue) /\
  abnormalityScore (checks fm queue)
  = (if signalPoor fm then of_Z 15 else zero) /\
  (abnormalityScore (checks fm queue) <? of_Z 20) = true.
Proof.
  rewrite checks_isNormal. intros Hnone. apply negb_true_iff in Hnone.
  apply orb_false_elim in Hnone as [Hnone Hspiky].
  apply orb_false_elim in Hnone as [Hnone Hrate].
  apply orb_false_elim in Hnone as [Hzcr Hvar].
  assert (checks fm queue
          = checkSignal (feature fm "avgRMS") (feature fm "avgEnergy")
              (mkState true zero queue)) as Heq.
  { unfold checks.
    pose proof (checkZCR_fires fm (mkState true zero queue)) as H1.
    unfold fires in H1. rewrite Hzcr in H1. rewrite H1.
    pose proof (checkVariance_fires fm (mkState true zero queue)) as H2.
    unfold fires in H2. rewrite Hvar in H2. rewrite H2.
    pose proof (checkRate_fires fm (mkState true zero queue)) as H3.
    unfold fires in H3. rewrite Hrate in H3. rewrite H3.
    pose proof (checkSpikes_fires fm
                  (checkSignal (feature fm "avgRMS") (feature fm "avgEnergy")
                     (mkState true zero queue))) as H5.
    unfold fires in H5. rewrite Hspiky in H5. by rewrite H5. }
  split; [exact Heq|]. rewrite Heq, checkSignal_score. cbn [abnormalityScore].
  destruct (signalPoor fm); split; vm_compute; reflexivity.
Qed.

Lemma classify_normal (fm : FeatureMap.t FeatureValue)
    (queue : PriorityQueue.t AbnormalityEvent) :
  isNormal (checks fm queue) = true ->
  let c := fst (classifyBreathing fm queue) in
  status c = normal /\
  abnormalityConfidence c = None /\
  confidenceScore c
  = Math_round (Math_max (of_Z 75) (of_Z 100 - abnormalityScore (checks fm queue))) /\
  lungComfort c <> NeedsAttention /\
  snd (classifyBreathing fm queue) = abnormalityQueue (checks fm queue).
Proof.
  intros Hn. destruct (checks_score fm queue Hn) as (_ & _ & Hlt).
  unfold checks, feature, frames in *. unfold classifyBreathing. cbv zeta.
  rewrite Hn, Hlt. cbn [andb fst snd status abnormalityConfidence confidenceScore
                        lungComfort].
  repeat split. by repeat case_match.
Qed.

Lemma enqueue_nonempty {A : Type} (items : PriorityQueue.t A) (e : A) (p : number) :
  PriorityQueue.isEmpty (PriorityQueue.enqueue items e p) = false.
Proof.
  pose proof (PriorityQueueContents.insert_perm (PriorityQueue.mkItem e p) items) as H.
  rewrite <- PriorityQueueProps.enqueue_insert in H.
  apply Permutation_length in H. by destruct (PriorityQueue.enqueue items e p).
Qed.

Lemma fires_nonempty (trigger flips : bool) (ev : AbnormalityEvent * number)
    (st st' : ClassifierState) :
  fires trigger flips ev st st' ->
  (isNormal st = false -> PriorityQueue.isEmpty (abnormalityQueue st) = false) ->
  isNormal st' = false -> PriorityQueue.isEmpty (abnormalityQueue st') = false.
Proof.
  unfold fires. destruct trigger.
  - intros [-> _] _ _. apply enqueue_nonempty.
  - by intros ->.
Qed.

(** Once [isNormal] has been cleared the queue holds an event. *)
Lemma checks_nonempty (fm : FeatureMap.t FeatureValue)
    (queue : PriorityQueue.t AbnormalityEvent) :
  isNormal (checks fm queue) = false ->
  PriorityQueue.isEmpty (abnormalityQueue (checks fm queue)) = false.
Proof.
  unfold checks.
  eapply fires_nonempty; [apply checkSpikes_fires|].
  eapply fires_nonempty; [apply checkSignal_fires|].
  eapply fires_nonempty; [apply checkRate_fires|].
  eapply fires_nonempty; [apply checkVariance_fires|].
  eapply fires_nonempty; [apply checkZCR_fires|].
  cbn. discriminate.
Qed.

Lemma classify_abnormal (fm : FeatureMap.t FeatureValue)
    (queue : PriorityQueue.t AbnormalityEvent) :
  isNormal (checks fm queue) = false ->
  let c := fst (classifyBreathing fm queue) in
  status c = abnormal /\
  breathingType c = None /\
  lungComfort c = NeedsAttention /\
  snd (classifyBreathing fm queue) = abnormalityQueue (checks fm queue).
Proof.
  intros Hn. pose proof (checks_nonempty fm queue Hn) as Hne.
  unfold checks, feature, frames in *. unfold classifyBreathing. cbv zeta.
  rewrite Hn, Hne. cbn [andb fst snd status breathingType lungComfort].
  repeat split.
Qed.

End ClassifierProps.

Module ClassifierQueue.
Import ClassifierProps.

(** Type and description of the events of the five checks. *)
Definition check_events : list (AbnormalityType * string) :=
  [(wheezing, "Wheezing pattern detected (high frequency)"%string);
   (irregular, "Irregular breathing rhythm detected"%string);
   (shortness, "Slow breathing rate (Bradypnea)"%string);
   (shortness, "Rapid breathing rate (Tachypnea)"%string);
   (noise, "Poor signal quality / Environmental noise"%string);
   (irregular, "Sudden energy spikes (cough/gasp pattern)"%string)].

Definition from_check (e : AbnormalityEvent) : Prop :=
  (type e, description e) ∈ check_events.

(** [q1] is [q0] with at most [k] events of the checks added. *)
Definition grown (k : nat) (q0 q1 : PriorityQueue.t AbnormalityEvent) : Prop :=
  (length q0 <= length q1 <= length q0 + k)%nat /\
  (forall it, it ∈ q0 -> it ∈ q1) /\
  (forall it, it ∈ q1 -> it ∈ q0 \/ from_check (PriorityQueue.element it)).

Lemma elem_of_enqueue {A : Type} (items : PriorityQueue.t A) (e : A) (p : number)
    (it : PriorityQueue.item A) :
  it ∈ PriorityQueue.enqueue items e p <-> it = PriorityQueue.mkItem e p \/ it ∈ items.
Proof.
  rewrite PriorityQueueProps.enqueue_insert, PriorityQueueContents.insert_perm.
  apply elem_of_cons.
Qed.

Lemma length_enqueue {A : Type} (items : PriorityQueue.t A) (e : A) (p : number) :
  length (PriorityQueue.enqueue items e p) = S (length items).
Proof.
  rewrite PriorityQueueProps.enqueue_insert.
  by rewrite (Permutation_length (PriorityQueueContents.insert_perm _ _)).
Qed.

Lemma fires_grown (trigger flips : bool) (ev : AbnormalityEvent * number)
    (st st' : ClassifierState) (k : nat) (q0 : PriorityQueue.t AbnormalityEvent) :
  fires trigger flips ev st st' -> from_check (fst ev) ->
  grown k q0 (abnormalityQueue st) -> grown (S k) q0 (abnormalityQueue st').
Proof.
  unfold fires. intros Hfires Hev (Hlen & Hkeep & Hfrom). destruct trigger.
  - destruct Hfires as [-> _]. split; [|split].
    + rewrite length_enqueue. lia.
    + intros it Hit. apply elem_of_enqueue. right. by apply Hkeep.
    + intros it Hit. apply elem_of_enqueue in Hit as [->|Hit]; [by right|].
      by apply Hfrom.
  - subst st'. split; [lia|]. by split.
Qed.

Lemma fires_reported (trigger flips : bool) (ev : AbnormalityEvent * number)
    (st st' : ClassifierState) :
  fires trigger flips ev st st' -> trigger = true ->
  PriorityQueue.mkItem (fst ev) (snd ev) ∈ abnormalityQueue st'.
Proof.
  unfold fires. intros Hfires ->. destruct Hfires as [-> _].
  apply elem_of_enqueue. by left.
Qed.

Lemma fires_kept (trigger flips : bool) (ev : AbnormalityEvent * number)
    (st st' : ClassifierState) (it : PriorityQueue.item AbnormalityEvent) :
  fires trigger flips ev st st' ->
  it ∈ abnormalityQueue st -> it ∈ abnormalityQueue st'.
Proof.
  unfold fires. destruct trigger.
  - intros [-> _] Hit. apply elem_of_enqueue. by right.
  - by intros ->.
Qed.

Lemma rateEvent_from_check (fm : FeatureMap.t FeatureValue) :
  from_check (fst (rateEvent fm)).
Proof.
  unfold from_check, rateEvent, check_events.
  destruct (feature fm "breathingRate" <? NORMAL_BREATHING_RATE_MIN);
    cbn [fst type description]; set_solver.
Qed.

Lemma checks_grown (fm : FeatureMap.t FeatureValue)
    (queue : PriorityQueue.t AbnormalityEvent) :
  grown 5 queue (abnormalityQueue (checks fm queue)).
Proof.
  unfold checks.
  eapply fires_grown; [apply checkSpikes_fires|unfold from_check, check_events; cbn; set_solver|].
  eapply fires_grown; [apply checkSignal_fires|unfold from_check, check_events; cbn; set_solver|].
  eapply fires_grown; [apply checkRate_fires|apply rateEvent_from_check|].
  eapply fires_grown; [apply checkVariance_fires|unfold from_check, check_events; cbn; set_solver|].
  eapply fires_grown; [apply checkZCR_fires|unfold from_check, check_events; cbn; set_solver|].
  cbn [abnormalityQueue]. split; [lia|]. split; [done|]. intros it Hit. by left.
Qed.

(** The queue that [classifyBreathing] returns is the queue after the
    five checks: the branch that adds a general event is never taken. *)
Lemma classify_queue (fm : FeatureMap.t FeatureValue)
    (queue : PriorityQueue.t AbnormalityEvent) :
  snd (classifyBreathing fm queue) = abnormalityQueue (checks fm queue).
Proof.
  destruct (isNormal (checks fm queue)) eqn:Hn.
  - by apply classify_normal.
  - by apply classify_abnormal.
Qed.

Lemma classify_status (fm : FeatureMap.t FeatureValue)
    (queue : PriorityQueue.t AbnormalityEvent) :
  status (fst (classifyBreathing fm queue))
  = if isNormal (checks fm queue) then normal else abnormal.
Proof.
  destruct (isNormal (checks fm queue)) eqn:Hn.
  - by apply classify_normal.
  - by apply classify_abnormal.
Qed.

End ClassifierQueue.

(** X7: the status is [normal] exactly when none of the ZCR, variance,
    breathing-rate and energy-spike checks fires.  The score test
    [abnormalityScore < 20] never decides: with those four checks silent
    the score is 0, or 15 when the signal-quality check fired. *)
Theorem status_normal_iff (featureMap : FeatureMap.t FeatureValue)
    (queue : PriorityQueue.t AbnormalityEvent) :
  let avgZCR := toNumber (FeatureMap.get featureMap "avgZCR") in
  let energyVariance := toNumber (FeatureMap.get featureMap "energyVariance") in
  let breathingRate := toNumber (FeatureMap.get featureMap "breathingRate") in
  let windowFeatures := toFrames (FeatureMap.get featureMap "windowFeatures") in
  status (fst (classifyBreathing featureMap queue)) = normal <->
  (avgZCR >? NORMAL_ZCR_MAX) = false /\
  (energyVariance >? NORMAL_VARIANCE_MAX) = false /\
  (breathingRate <? NORMAL_BREATHING_RATE_MIN) = false /\
  (breathingRate >? NORMAL_BREATHING_RATE_MAX) = false /\
  match windowFeatures with
  | Some ws => (3 <? len ws)%Z && (1 <? energySpikes ws)%Z = false
  | None => True
  end.
Proof.
  intros avgZCR energyVariance breathingRate windowFeatures.
  rewrite ClassifierQueue.classify_status, ClassifierProps.checks_isNormal.
  unfold ClassifierProps.zcrHigh, ClassifierProps.varianceHigh,
    ClassifierProps.rateOff, ClassifierProps.spiky, ClassifierProps.feature,
    ClassifierProps.frames.
  fold avgZCR energyVariance breathingRate windowFeatures.
  destruct (avgZCR >? NORMAL_ZCR_MAX), (energyVariance >? NORMAL_VARIANCE_MAX),
    (breathingRate <? NORMAL_BREATHING_RATE_MIN),
    (breathingRate >? NORMAL_BREATHING_RATE_MAX);
    cbn [orb negb]; try (split; [discriminate|by intros (? & ? & ? & ? & ?)]).
  destruct windowFeatures as [ws|]; [|done].
  destruct ((3 <? len ws)%Z && (1 <? energySpikes ws)%Z); cbn [negb].
  - split; [discriminate|by intros (? & ? & ? & ? & ?)].
  - done.
Qed.

(** X8: a [normal] result has confidence 100, or 85 when the
    signal-quality check fired; it carries no abnormality confidence, its
    lung-comfort label is never [Needs Attention], and the queue holds, on
    top of what it held before, at most the signal-quality event. *)
Theorem normal_result (featureMap : FeatureMap.t FeatureValue)
    (queue : PriorityQueue.t AbnormalityEvent) :
  let avgRMS := toNumber (FeatureMap.get featureMap "avgRMS") in
  let avgEnergy := toNumber (FeatureMap.get featureMap "avgEnergy") in
  let poor := (avgRMS <? MIN_SIGNAL_THRESHOLD) || (avgEnergy <? dec 5 5) in
  let c := fst (classifyBreathing featureMap queue) in
  status c = normal ->
  confidenceScore c = (if poor then of_Z 85 else of_Z 100) /\
  abnormalityConfidence c = None /\
  lungComfort c <> NeedsAttention /\
  snd (classifyBreathing featureMap queue)
  = if poor
    then PriorityQueue.enqueue queue
           (mkEvent noise "Poor signal quality / Environmental noise" (of_Z 35))
           (of_Z 35)
    else queue.
Proof.
  intros avgRMS avgEnergy poor c. unfold c.
  rewrite ClassifierQueue.classify_status.
  destruct (isNormal (ClassifierProps.checks featureMap queue)) eqn:Hn;
    [intros _|discriminate].
  destruct (ClassifierProps.classify_normal featureMap queue Hn)
    as (_ & Hconf & Hscore & Hcomfort & Hqueue).
  destruct (ClassifierProps.checks_score featureMap queue Hn) as (Hst & Hsc & _).
  pose proof (ClassifierProps.checkSignal_fires featureMap
                (mkState true zero queue)) as Hfires.
  rewrite <- Hst in Hfires. unfold ClassifierProps.fires in Hfires.
  change (ClassifierProps.signalPoor featureMap) with poor in Hsc, Hfires.
  split; [|split; [done|split; [done|]]].
  - rewrite Hscore, Hsc. by destruct poor.
  - rewrite Hqueue. destruct poor; [by destruct Hfires|by rewrite Hfires].
Qed.

Lemma normal_result_witness :
  confidenceScore (fst (classifyBreathing featureMap_at_threshold [])) = of_Z 100.
Proof.
  refine (proj1 (normal_result featureMap_at_threshold [] _)).
  vm_compute. reflexivity.
Defined.

(** X9: [classifyBreathing] only adds to the queue: every event it was
    given is still there, at most five are added, each with the type and
    description of one of the five checks, so the event
    "General breathing irregularity" is never produced; and an
    [abnormal] result always comes with a non-empty queue. *)
Theorem classify_adds_check_events (featureMap : FeatureMap.t FeatureValue)
    (queue : PriorityQueue.t AbnormalityEvent) :
  let c := fst (classifyBreathing featureMap queue) in
  let queue' := snd (classifyBreathing featureMap queue) in
  (length queue <= length queue' <= length queue + 5)%nat /\
  (forall it, it ∈ queue -> it ∈ queue') /\
  (forall it, it ∈ queue' ->
     it ∈ queue \/
     (type (PriorityQueue.element it), description (PriorityQueue.element it))
       ∈ ClassifierQueue.check_events) /\
  (status c = abnormal -> PriorityQueue.isEmpty queue' = false).
Proof.
  intros c queue'. unfold c, queue'.
  rewrite ClassifierQueue.classify_queue, ClassifierQueue.classify_status.
  destruct (ClassifierQueue.checks_grown featureMap queue) as (Hlen & Hkeep & Hfrom).
  split; [exact Hlen|]. split; [exact Hkeep|]. split; [exact Hfrom|].
  destruct (isNormal (ClassifierProps.checks featureMap queue)) eqn:Hn;
    [discriminate|]. intros _. by apply ClassifierProps.checks_nonempty.
Qed.

(** X10: every check that fires leaves its event in the returned queue,
    with the severity the check computed as its priority: the wheezing
    event for a high zero-crossing rate, the irregular-rhythm event for a
    high energy variance, the breathing-rate event, the noise event for a
    poor signal, and the energy-spike event. *)
Theorem fired_checks_are_reported (featureMap : FeatureMap.t FeatureValue)
    (queue : PriorityQueue.t AbnormalityEvent) :
  let queue' := snd (classifyBreathing featureMap queue) in
  let reported (ev : AbnormalityEvent * number) :=
    PriorityQueue.mkItem (fst ev) (snd ev) ∈ queue' in
  (ClassifierProps.zcrHigh featureMap = true ->
     reported (ClassifierProps.zcrEvent featureMap)) /\
  (ClassifierProps.varianceHigh featureMap = true ->
     reported (ClassifierProps.varianceEvent featureMap)) /\
  (ClassifierProps.rateOff featureMap = true ->
     reported (ClassifierProps.rateEvent featureMap)) /\
  (ClassifierProps.signalPoor featureMap = true ->
     reported ClassifierProps.signalEvent) /\
  (ClassifierProps.spiky featureMap = true ->
     reported (ClassifierProps.spikesEvent featureMap)).
Proof.
  intros queue' reported. unfold reported, queue'.
  rewrite ClassifierQueue.classify_queue. unfold ClassifierProps.checks.
  repeat split; intros Hfire.
  - eapply ClassifierQueue.fires_kept; [apply ClassifierProps.checkSpikes_fires|].
    eapply ClassifierQueue.fires_kept; [apply ClassifierProps.checkSignal_fires|].
    eapply ClassifierQueue.fires_kept; [apply ClassifierProps.checkRate_fires|].
    eapply ClassifierQueue.fires_kept; [apply ClassifierProps.checkVariance_fires|].
    eapply ClassifierQueue.fires_reported; [apply ClassifierProps.checkZCR_fires|done].
  - eapply ClassifierQueue.fires_kept; [apply ClassifierProps.checkSpikes_fires|].
    eapply ClassifierQueue.fires_kept; [apply ClassifierProps.checkSignal_fires|].
    eapply ClassifierQueue.fires_kept; [apply ClassifierProps.checkRate_fires|].
    eapply ClassifierQueue.fires_reported; [apply ClassifierProps.checkVariance_fires|done].
  - eapply ClassifierQueue.fires_kept; [apply ClassifierProps.checkSpikes_fires|].
    eapply ClassifierQueue.fires_kept; [apply ClassifierProps.checkSignal_fires|].
    eapply ClassifierQueue.fires_reported; [apply ClassifierProps.checkRate_fires|done].
  - eapply ClassifierQueue.fires_kept; [apply ClassifierProps.checkSpikes_fires|].
    eapply ClassifierQueue.fires_reported; [apply ClassifierProps.checkSignal_fires|done].
  - eapply ClassifierQueue.fires_reported; [apply ClassifierProps.checkSpikes_fires|done].
Qed.

(** A feature map with a zero-crossing rate of 0.2 and a breathing rate
    of 30. *)
Definition featureMap_wheezing : FeatureMap.t FeatureValue :=
  featureMap_of (dec 36 4) (dec 6 2) (dec 2 1) (of_Z 300) (dec 1 4) (of_Z 30) 0 [].

Lemma fired_checks_are_reported_witness :
  PriorityQueue.mkItem (fst (ClassifierProps.zcrEvent featureMap_wheezing))
                       (snd (ClassifierProps.zcrEvent featureMap_wheezing))
    ∈ snd (classifyBreathing featureMap_wheezing []).
Proof.
  refine (proj1 (fired_checks_are_reported featureMap_wheezing []) _).
  vm_compute. reflexivity.
Defined.



(* ===================================================================== *)
(** ** Sliding window and main engine: when the loop ends *)
(* ===================================================================== *)

Lemma slidingWindow_loop_stuck (Math_cos Math_sin : number -> number)
    (signal : list number) (windowSize hopSize : Z) (sampleRate : number)
    (fuel : nat) (start : Z) (windows : list WindowFeature) :
  (hopSize <= 0)%Z -> (start < len signal - windowSize)%Z ->
  slidingWindow_loop Math_cos Math_sin fuel signal windowSize hopSize sampleRate
    start windows = None.
Proof.
  intros Hhop. revert start windows.
  induction fuel as [|fuel IH]; intros start windows Hstart; [done|].
  cbn [slidingWindow_loop].
  destruct (Z.ltb_spec start (len signal - windowSize)); [|lia].
  apply IH. lia.
Qed.

(** X12: with a [hopSize] of zero or less and a signal longer than the
    window, the loop of [slidingWindowAnalysis] never ends: [start] never
    reaches the bound, so after any number of turns the loop is still
    running and no result is returned. *)
Theorem slidingWindowAnalysis_never_ends (Math_cos Math_sin : number -> number)
    (signal : list number) (windowSize hopSize : Z) (sampleRate : number) :
  (hopSize <= 0)%Z -> (windowSize < len signal)%Z ->
  (forall fuel : nat,
     slidingWindow_loop Math_cos Math_sin fuel signal windowSize hopSize
       sampleRate 0 [] = None) /\
  slidingWindowAnalysis Math_cos Math_sin signal windowSize hopSize sampleRate = None.
Proof.
  intros Hhop Hlong. split.
  - intros fuel. apply slidingWindow_loop_stuck; lia.
  - apply slidingWindow_loop_stuck; lia.
Qed.

Lemma slidingWindowAnalysis_never_ends_witness :
  slidingWindowAnalysis (fun _ => NaN) (fun _ => NaN) [of_Z 1; of_Z 2; of_Z 3] 1 0 (of_Z 2)
  = None.
Proof.
  refine (proj2 (slidingWindowAnalysis_never_ends (fun _ => NaN) (fun _ => NaN)
                   [of_Z 1; of_Z 2; of_Z 3] 1 0 (of_Z 2) _ _)).
  - lia.
  - vm_compute. reflexivity.
Defined.

(** X14: [analyzeBreathing] returns a report exactly when the sample rate
    is at least 4 or the recording is not longer than one window of
    [floor(sampleRate / 2)] samples; for a smaller sample rate the hop is
    not positive and the analysis of a longer recording never ends.  When
    the sample rate is at least 4 the report has one frame for each offset
    [0, hop, 2 hop, ...] strictly below [length - windowSize]. *)
Theorem analyzeBreathing_returns (Math_cos Math_sin : number -> number)
    (audioData : list number) (sampleRate : Z) :
  let windowSize := (sampleRate / 2)%Z in
  let hopSize := (windowSize / 2)%Z in
  (analyzeBreathing Math_cos Math_sin audioData sampleRate = None <->
   (sampleRate < 4 /\ windowSize < len audioData)%Z) /\
  ((4 <= sampleRate)%Z ->
   exists r,
     analyzeBreathing Math_cos Math_sin audioData sampleRate = Some r /\
     startSample <$> windowFeatures r
     = frameStarts (len audioData - windowSize) hopSize /\
     len (windowFeatures r)
     = Z.max 0 ((len audioData - windowSize + hopSize - 1) / hopSize)).
Proof.
  intros windowSize hopSize.
  assert (len (removeNoise audioData default_noiseThreshold) = len audioData) as Hlen
    by (unfold len; by rewrite removeNoise_length).
  assert ((4 <= sampleRate)%Z ->
    exists r,
     analyzeBreathing Math_cos Math_sin audioData sampleRate = Some r /\
     startSample <$> windowFeatures r
     = frameStarts (len audioData - windowSize) hopSize /\
     len (windowFeatures r)
     = Z.max 0 ((len audioData - windowSize + hopSize - 1) / hopSize)) as Hbig.
  { intros Hrate.
    assert (0 < hopSize)%Z as Hhop.
    { unfold hopSize, windowSize. apply Z.div_str_pos. split; [lia|].
      apply Z.div_le_lower_bound; lia. }
    unfold analyzeBreathing. fold windowSize hopSize.
    rewrite slidingWindowAnalysis_eq by done. rewrite Hlen.
    eexists. split; [reflexivity|].
    assert (windowFeatures
              (analyzeBreathing_report audioData sampleRate
                 (analyzeWindow Math_cos Math_sin
                    (removeNoise audioData default_noiseThreshold) windowSize
                    (of_Z sampleRate)
                    <$> frameStarts (len audioData - windowSize) hopSize))
            = analyzeWindow Math_cos Math_sin
                (removeNoise audioData default_noiseThreshold) windowSize
                (of_Z sampleRate)
                <$> frameStarts (len audioData - windowSize) hopSize) as ->.
    { unfold analyzeBreathing_report. by destruct (classifyBreathing _ _). }
    split.
    - rewrite <- list_fmap_compose.
      etransitivity; [|apply list_fmap_id]. apply list_fmap_ext. by intros _ k _.
    - unfold len at 1. rewrite length_fmap. unfold frameStarts.
      rewrite length_fmap, length_seqZ. lia. }
  split; [|exact Hbig]. split.
  - intros Hnone. destruct (Z.lt_ge_cases sampleRate 4) as [Hsmall|Hbig'].
    + split; [done|]. destruct (Z.lt_ge_cases windowSize (len audioData)); [done|].
      unfold analyzeBreathing in Hnone. fold windowSize hopSize in Hnone.
      rewrite slidingWindowAnalysis_short in Hnone by lia. discriminate Hnone.
    + destruct (Hbig Hbig') as (r & Hr & _). congruence.
  - intros [Hsmall Hlong]. unfold analyzeBreathing. fold windowSize hopSize.
    assert (hopSize <= 0)%Z as Hhop.
    { unfold hopSize, windowSize.
      assert (sampleRate / 2 < 2)%Z by (apply Z.div_lt_upper_bound; lia).
      apply Z.lt_succ_r. apply Z.div_lt_upper_bound; lia. }
    unfold slidingWindowAnalysis.
    rewrite slidingWindow_loop_stuck by (rewrite ?Hlen; lia). done.
Qed.

Lemma analyzeBreathing_returns_witness :
  exists r,
    analyzeBreathing (fun _ => NaN) (fun _ => NaN)
      [dec 5 1; dec 5 1; dec 5 1; dec 5 1; dec 5 1; dec 5 1; dec 5 1] 8 = Some r /\
    startSample <$> windowFeatures r = [0; 2]%Z.
Proof.
  destruct (proj2 (analyzeBreathing_returns (fun _ => NaN) (fun _ => NaN)
              [dec 5 1; dec 5 1; dec 5 1; dec 5 1; dec 5 1; dec 5 1; dec 5 1] 8))
    as (r & Hrun & Hstarts & _); [lia|].
  exists r. split; [exact Hrun|exact Hstarts].
Defined.

(* ===================================================================== *)
(** ** Peak detection: how many peaks, and when none *)
(* ===================================================================== *)

Module PeakCount.
Import PeakProps.

(** Peaks that are pairwise more than [g - 1] positions apart and start
    at [lo] or later need room: the last one is at [lo + (k - 1) g] or
    later. *)
Lemma apart_span (signal : list number) (peaks : list Peak) (lo hi : Z) :
  StronglySorted (apart signal) peaks ->
  Forall (fun p => (lo <= Z.of_nat (index p) <= hi)%Z) peaks ->
  peaks <> [] ->
  (lo + (Z.of_nat (length peaks) - 1) * (len signal / 20 + 1) <= hi)%Z.
Proof.
  intros Hsorted. revert lo.
  induction Hsorted as [|p rest Hrest IH Hp]; intros lo Hrange Hne; [done|].
  apply Forall_cons in Hrange as [Hp_range Hrest_range].
  destruct rest as [|q rest'].
  - cbn [length]. lia.
  - assert (Forall (fun r => (Z.of_nat (index p) + (len signal / 20 + 1)
                              <= Z.of_nat (index r) <= hi)%Z) (q :: rest')) as Hshift.
    { rewrite Forall_forall in Hp, Hrest_range |- *. intros r Hr.
      destruct (Hp r Hr) as [_ Hgap]. specialize (Hrest_range r Hr). cbn in Hrest_range.
      lia. }
    specialize (IH _ Hshift ltac:(done)).
    cbn [length] in *. lia.
Qed.

Lemma detectPeaks_span (signal : list number) (threshold : number) :
  detectPeaks signal threshold <> [] ->
  ((len (detectPeaks signal threshold) - 1) * (len signal / 20 + 1) + 3
   <= len signal)%Z.
Proof.
  intros Hne.
  destruct (detectPeaks_scanned signal threshold) as [Hall Hsorted].
  assert (Forall (fun p => (1 <= Z.of_nat (index p)
                            <= Z.of_nat (length signal) - 2)%Z)
                 (detectPeaks signal threshold)) as Hrange.
  { eapply Forall_impl; [exact Hall|]. intros p [(Hlo & Hhi & _) _]. cbn. lia. }
  pose proof (apart_span signal _ 1 _ Hsorted Hrange Hne). unfold len in *. lia.
Qed.

Lemma detectPeaks_count (signal : list number) (threshold : number) :
  (length (detectPeaks signal threshold) <= 20)%nat.
Proof.
  destruct (decide (detectPeaks signal threshold = [])) as [->|Hne]; [cbn; lia|].
  pose proof (detectPeaks_span signal threshold Hne) as Hspan.
  pose proof (Z.mul_succ_div_gt (len signal) 20 ltac:(lia)) as Hdiv.
  unfold len in *. nia.
Qed.

Lemma detectPeaks_no_candidate (signal : list number) (threshold : number) :
  (forall i : nat, candidate signal threshold i = false) ->
  detectPeaks signal threshold = [].
Proof.
  intros Hnone. unfold detectPeaks. apply fold_no_candidate. by intros i _.
Qed.

End PeakCount.

(** X15: [detectPeaks] never returns more than 20 peaks: [k] peaks
    need [(k - 1) (floor(length / 20) + 1) + 3] samples.  Hence no report
    of [analyzeBreathing] holds more than 20 peaks. *)
Theorem detectPeaks_at_most_20 (signal : list number) (threshold : number) :
  (length (detectPeaks signal threshold) <= 20)%nat /\
  (detectPeaks signal threshold <> [] ->
   ((len (detectPeaks signal threshold) - 1) * (len signal / 20 + 1) + 3
    <= len signal)%Z) /\
  forall (audioData : list number) (sampleRate : Z) (frames : list WindowFeature),
    (length (peaks (analyzeBreathing_report audioData sampleRate frames)) <= 20)%nat.
Proof.
  split; [apply PeakCount.detectPeaks_count|].
  split; [apply PeakCount.detectPeaks_span|].
  intros audioData sampleRate frames. unfold analyzeBreathing_report.
  destruct (classifyBreathing _ _). cbn [peaks].
  apply PeakCount.detectPeaks_count.
Qed.

Lemma detectPeaks_at_most_20_witness :
  ((len (detectPeaks [of_Z 1; of_Z 3; of_Z 1; of_Z 3; of_Z 1] (dec 1 1)) - 1)
   * (len [of_Z 1; of_Z 3; of_Z 1; of_Z 3; of_Z 1] / 20 + 1) + 3
   <= len [of_Z 1; of_Z 3; of_Z 1; of_Z 3; of_Z 1])%Z.
Proof.
  refine (proj1 (proj2 (detectPeaks_at_most_20
            [of_Z 1; of_Z 3; of_Z 1; of_Z 3; of_Z 1] (dec 1 1))) _).
  vm_compute. discriminate.
Defined.

(** X16: [detectPeaks] returns no peak for a signal of fewer than three
    samples, for a signal in which no sample exceeds the threshold, for a
    signal in which no sample is greater than its right neighbour (it
    never falls), and for one in which no sample is greater than its left
    neighbour (it never rises); a flat signal is both. *)
Theorem detectPeaks_none (signal : list number) (threshold : number) :
  ((length signal < 3)%nat -> detectPeaks signal threshold = []) /\
  ((forall i : nat, (cell signal i >? threshold) = false) ->
   detectPeaks signal threshold = []) /\
  ((forall i : nat, (cell signal i >? cell signal (i + 1)) = false) ->
   detectPeaks signal threshold = []) /\
  ((forall i : nat, (cell signal (i + 1) >? cell signal i) = false) ->
   detectPeaks signal threshold = []).
Proof.
  split; [|split; [|split]].
  - intros Hshort. unfold detectPeaks.
    by replace (length signal - 2)%nat with 0%nat by lia.
  - intros Hlow. apply PeakCount.detectPeaks_no_candidate. intros i.
    unfold PeakProps.candidate. by rewrite Hlow, andb_false_r.
  - intros Hrise. apply PeakCount.detectPeaks_no_candidate. intros i.
    unfold PeakProps.candidate. by rewrite Hrise, andb_false_r.
  - intros Hfall. unfold detectPeaks. apply PeakProps.fold_no_candidate.
    intros i Hi. apply elem_of_seq in Hi. unfold PeakProps.candidate.
    pose proof (Hfall (i - 1)%nat) as H.
    replace (i - 1 + 1)%nat with i in H by lia. by rewrite H.
Qed.

Lemma detectPeaks_none_witness :
  detectPeaks [of_Z 2; of_Z 2; of_Z 2; of_Z 2] (dec 1 1) = [].
Proof.
  refine (proj1 (proj2 (proj2 (detectPeaks_none [of_Z 2; of_Z 2; of_Z 2; of_Z 2]
                                 (dec 1 1)))) _).
  intros [|[|[|[|i]]]]; reflexivity.
Defined.

(* ===================================================================== *)
(** ** Fourier transform: shape of the result; the dominant bin *)
(* ===================================================================== *)

Lemma paddedLength_bounds (n : Z) :
  (1 <= n)%Z ->
  (n <= paddedLength n < 2 * n)%Z /\ paddedLength n = (2 ^ Z.log2_up n)%Z.
Proof.
  intros Hn. unfold paddedLength. destruct (Z.leb_spec n 0); [lia|].
  split; [|done]. destruct (decide (n = 1)) as [->|Hne]; [cbn; lia|].
  pose proof (Z.log2_up_spec n ltac:(lia)) as [Hlo Hhi].
  pose proof (Z.log2_up_pos n ltac:(lia)) as Hpos.
  split; [done|].
  replace (Z.log2_up n) with (Z.succ (Z.pred (Z.log2_up n))) by lia.
  rewrite Z.pow_succ_r by lia. lia.
Qed.

(** X17: [fft] returns three arrays of the same length [P / 2], where
    [P], the padded length, is the least power of two that is at least the
    signal length [n] (so [n <= P < 2 n]); a signal of at most one sample
    gives three empty arrays, a longer one at least one bin and fewer
    bins than samples. *)
Theorem fft_shape (Math_cos Math_sin : number -> number) (signal : list number) :
  let P := paddedLength (len signal) in
  let r := fft Math_cos Math_sin signal in
  len (real r) = (P / 2)%Z /\
  len (imag r) = (P / 2)%Z /\
  len (magnitudes r) = (P / 2)%Z /\
  ((len signal <= 1)%Z -> r = mkFFT [] [] []) /\
  ((1 <= len signal)%Z ->
   (len signal <= P < 2 * len signal)%Z /\ P = (2 ^ Z.log2_up (len signal))%Z) /\
  ((2 <= len signal)%Z -> (1 <= P / 2 < len signal)%Z).
Proof.
  intros P r.
  assert (0 <= P / 2)%Z as Hbins.
  { apply Z.div_pos; [|lia]. unfold P, paddedLength.
    destruct (Z.leb_spec (len signal) 0); [lia|]. apply Z.pow_nonneg. lia. }
  unfold r, fft, len. fold (len signal). fold P. cbn [real imag magnitudes].
  rewrite !length_fmap, !length_seq.
  split; [lia|]. split; [lia|]. split; [lia|]. split; [|split].
  - intros Hshort.
    assert (Z.to_nat (P / 2) = 0%nat) as ->; [|done].
    unfold P, paddedLength. destruct (Z.leb_spec (len signal) 0); [done|].
    replace (len signal) with 1%Z by lia. done.
  - intros Hn. by apply paddedLength_bounds.
  - intros Hn. destruct (paddedLength_bounds (len signal)) as [[Hlo Hhi] HP]; [lia|].
    fold P in Hlo, Hhi, HP. split.
    + apply Z.div_le_lower_bound; lia.
    + apply Z.div_lt_upper_bound; lia.
Qed.

Lemma fft_shape_witness :
  len (magnitudes (fft (fun _ => NaN) (fun _ => NaN)
                     [of_Z 1; of_Z 2; of_Z 3; of_Z 4; of_Z 5])) = 4%Z.
Proof.
  exact (proj1 (proj2 (proj2 (fft_shape (fun _ => NaN) (fun _ => NaN)
                                [of_Z 1; of_Z 2; of_Z 3; of_Z 4; of_Z 5])))).
Defined.

Module DominantBin.

(** The scan either keeps the bin it started with, nothing exceeding the
    running maximum, or ends on the first position that holds the
    largest magnitude. *)
Lemma dominantScan_spec (l : list number) (i : Z) (maxMag : number) (bin : Z) :
  (dominantScan l i maxMag bin = bin /\
   Forall (fun m => (m >? maxMag) = false) l) \/
  (exists (j : nat) (m : number),
     l !! j = Some m /\
     dominantScan l i maxMag bin = (i + Z.of_nat j)%Z /\
     (m >? maxMag) = true /\
     (forall j' m', l !! j' = Some m' -> (m' >? m) = false) /\
     (forall j' m', (j' < j)%nat -> l !! j' = Some m' ->
                    isNaN m' = true \/ (m' <? m) = true)).
Proof.
  revert i maxMag bin. induction l as [|x l IH]; intros i maxMag bin.
  - left. by split.
  - cbn [dominantScan]. destruct (x >? maxMag) eqn:Hx.
    + right. destruct (IH (i + 1)%Z x i) as [[-> Hall]|(j & m & Hj & -> & Hm & Hmax & Hfirst)].
      * exists 0%nat, x. split; [done|]. split; [lia|]. split; [done|]. split.
        -- intros [|j'] m' Hm'.
           ++ injection Hm' as <-. apply not_true_is_false. intros Hxx.
              apply lt_key in Hxx as (_ & _ & Hxx). by apply key_lt_irrefl in Hxx.
           ++ rewrite Forall_forall in Hall. apply Hall.
              apply list_elem_of_lookup. by exists j'.
        -- intros j' m' Hlt. lia.
      * exists (S j), m. split; [done|]. split; [lia|]. split; [|split].
        -- apply lt_key in Hx as (HM & _ & Hx). apply lt_key in Hm as (_ & Hm' & Hm).
           apply lt_key. repeat split; [done..|]. by apply (key_lt_trans _ (key x)).
        -- intros [|j'] m' Hm'; [|by apply (Hmax j')].
           injection Hm' as <-. by apply gt_not_lt.
        -- intros [|j'] m' Hlt Hm'.
           ++ injection Hm' as <-. by right.
           ++ apply (Hfirst j'); [lia|done].
    + destruct (IH (i + 1)%Z maxMag bin) as [[-> Hall]|(j & m & Hj & -> & Hm & Hmax & Hfirst)].
      * left. split; [done|]. by constructor.
      * right. exists (S j), m. split; [done|]. split; [lia|]. split; [done|].
        assert (isNaN x = true \/ (x <? m) = true) as Hxm.
        { destruct (isNaN x) eqn:Hnan; [by left|right].
          apply lt_key in Hm as (HM & Hm' & Hm).
          pose proof (lt_false_key _ _ HM Hnan Hx) as Hx'.
          apply lt_key. repeat split; [done..|].
          destruct (key_lt_total (key x) (key maxMag)) as [Hlt|[Heq|Hgt]].
          - by apply (key_lt_trans _ (key maxMag)).
          - by rewrite Heq.
          - done. }
        split.
        -- intros [|j'] m' Hm'; [|by apply (Hmax j')].
           injection Hm' as <-. destruct Hxm as [Hnan|Hlt].
           ++ by apply NaN_not_gt.
           ++ by apply lt_not_gt.
        -- intros [|j'] m' Hlt Hm'.
           ++ by injection Hm' as <-.
           ++ apply (Hfirst j'); [lia|done].
Qed.

End DominantBin.

(** X18: the dominant bin is 0 exactly when no magnitude from bin 1 on
    is greater than 0; otherwise it is a bin [b >= 1] inside the spectrum
    whose magnitude is greater than 0, is exceeded by no magnitude from
    bin 1 on, and is strictly greater than every (numeric) magnitude of
    the bins between 1 and [b]: the first bin that holds the maximum.  Bin
    0 itself is never looked at. *)
Theorem dominantFreqBin_first_maximum (mags : list number) :
  let b := dominantFreqBin mags in
  (b = 0%Z /\ forall i : nat, (1 <= i)%nat -> (cell mags i >? zero) = false) \/
  ((1 <= b < len mags)%Z /\
   (cell mags (Z.to_nat b) >? zero) = true /\
   (forall i : nat, (1 <= i)%nat ->
      (cell mags i >? cell mags (Z.to_nat b)) = false) /\
   (forall i : nat, (1 <= i < Z.to_nat b)%nat ->
      isNaN (cell mags i) = true \/
      (cell mags i <? cell mags (Z.to_nat b)) = true)).
Proof.
  intros b. unfold b, dominantFreqBin.
  destruct (DominantBin.dominantScan_spec (drop 1 mags) 1 zero 0)
    as [[-> Hall]|(j & m & Hj & -> & Hm & Hmax & Hfirst)].
  - left. split; [done|]. intros i Hi. unfold cell.
    destruct (mags !! i) as [x|] eqn:Hx; [|done]. cbn.
    rewrite Forall_forall in Hall. apply Hall.
    apply list_elem_of_lookup. exists (i - 1)%nat. rewrite lookup_drop.
    by replace (1 + (i - 1))%nat with i by lia.
  - right. rewrite lookup_drop in Hj.
    replace (Z.to_nat (1 + Z.of_nat j)) with (1 + j)%nat by lia.
    assert (cell mags (1 + j) = m) as Hcell by (unfold cell; by rewrite Hj).
    rewrite !Hcell.
    split; [|split; [done|split]].
    + apply lookup_lt_Some in Hj. unfold len. lia.
    + intros i Hi. unfold cell.
      destruct (mags !! i) as [x|] eqn:Hx; [|by apply NaN_not_gt]. cbn.
      apply (Hmax (i - 1)%nat). rewrite lookup_drop.
      by replace (1 + (i - 1))%nat with i by lia.
    + intros i Hi. unfold cell. destruct (mags !! i) as [x|] eqn:Hx; [|by left]. cbn.
      apply (Hfirst (i - 1)%nat); [lia|]. rewrite lookup_drop.
      by replace (1 + (i - 1))%nat with i by lia.
Qed.

(* ===================================================================== *)
(** ** Integers as numbers, and frames of one sign *)
(* ===================================================================== *)

Module Exact.

Lemma digits2_size (p : positive) : digits2_pos p = Pos.size p.
Proof. induction p as [p IH|p IH|]; cbn; congruence. Qed.

Lemma digits2_iter (p k : positive) :
  Z.pos (digits2_pos (Pos.iter xO p k)) = (Z.pos (digits2_pos p) + Z.pos k)%Z.
Proof.
  revert p. induction k as [|k IH] using Pos.peano_ind; intros p.
  - cbn. lia.
  - rewrite Pos.iter_succ. cbn [digits2_pos]. rewrite Pos2Z.inj_succ, IH. lia.
Qed.

Lemma digits2_small (p : positive) :
  (Z.pos p < 2 ^ 53)%Z -> (Z.pos (digits2_pos p) <= 53)%Z.
Proof.
  intros Hp. rewrite digits2_size.
  destruct (Z.le_gt_cases (Z.pos (Pos.size p)) 53) as [|Hbig]; [done|].
  pose proof (Pos.size_le p) as Hsize.
  apply Pos2Z.pos_le_pos in Hsize. rewrite Pos2Z.inj_pow in Hsize.
  pose proof (Z.pow_le_mono_r 2 54 (Z.pos (Pos.size p)) ltac:(lia) ltac:(lia)).
  change (Z.pos p~0) with (2 * Z.pos p)%Z in Hsize. lia.
Qed.

(** A mantissa of full width is left alone by the rounding. *)
Lemma binary_round_aux_exact (m : positive) (e : Z) :
  Z.pos (digits2_pos m) = 53%Z -> (-1074 <= e <= 971)%Z ->
  binary_round_aux 53 1024 false (Z.pos m) e loc_Exact = S754_finite false m e.
Proof.
  intros Hd He. unfold binary_round_aux, shr_fexp, fexp, emin.
  cbn [Zdigits2 shr_record_of_loc]. rewrite Hd.
  replace (Z.max (53 + e - 53) (3 - 1024 - 53) - e)%Z with 0%Z by lia.
  cbn [shr shr_m loc_of_shr_record round_nearest_even Zdigits2 shr_record_of_loc].
  rewrite Hd.
  replace (Z.max (53 + e - 53) (3 - 1024 - 53) - e)%Z with 0%Z by lia.
  cbn [shr shr_m]. destruct (Z.leb_spec e (1024 - 53)); [done|lia].
Qed.

(** A positive integer below 2^53 is a positive finite number. *)
Lemma of_Z_finite (n : Z) :
  (0 < n < 2 ^ 53)%Z -> exists m e, of_Z n = S754_finite false m e.
Proof.
  intros [Hpos Hsmall]. destruct n as [|p|p]; [lia| |lia].
  pose proof (digits2_small p Hsmall) as Hd.
  unfold of_Z, JS.prec, JS.emax, binary_normalize, binary_round, fexp, emin.
  replace (Z.max (Z.pos (digits2_pos p) + 0 - 53) (3 - 1024 - 53))%Z
    with (Z.pos (digits2_pos p) - 53)%Z by lia.
  unfold shl_align.
  destruct (Z.pos (digits2_pos p) - 53 - 0)%Z as [|k|k] eqn:Hk; [|lia|].
  - eexists _, _. apply binary_round_aux_exact; lia.
  - eexists _, _. apply binary_round_aux_exact; [|lia].
    rewrite digits2_iter. lia.
Qed.

Lemma zero_div_of_Z (n : Z) : (0 < n < 2 ^ 53)%Z -> zero / of_Z n = zero.
Proof. intros Hn. by destruct (of_Z_finite n Hn) as (m & e & ->). Qed.

Lemma ge_zero_not_lt (x : number) : (x >=? zero) = true -> (x <? zero) = false.
Proof.
  intros Hge. apply not_true_is_false. intros Hlt.
  apply le_key in Hge as (_ & _ & Hge). apply lt_key in Hlt as (_ & _ & Hlt).
  done.
Qed.

Lemma lt_zero_not_ge (x : number) : (x <? zero) = true -> (x >=? zero) = false.
Proof.
  intros Hlt. apply not_true_is_false. intros Hge.
  by rewrite (ge_zero_not_lt x Hge) in Hlt.
Qed.

Lemma countCrossings_nonneg (prev : number) (rest : list number) (c : Z) :
  (prev >=? zero) = true -> Forall (fun x => (x >=? zero) = true) rest ->
  countCrossings prev rest c = c.
Proof.
  intros Hprev Hall. revert prev c Hprev.
  induction Hall as [|x rest Hx Hrest IH]; intros prev c Hprev; [done|].
  cbn [countCrossings].
  rewrite (ge_zero_not_lt prev Hprev), (ge_zero_not_lt x Hx), Hx. cbn. by apply IH.
Qed.

Lemma countCrossings_neg (prev : number) (rest : list number) (c : Z) :
  (prev <? zero) = true -> Forall (fun x => (x <? zero) = true) rest ->
  countCrossings prev rest c = c.
Proof.
  intros Hprev Hall. revert prev c Hprev.
  induction Hall as [|x rest Hx Hrest IH]; intros prev c Hprev; [done|].
  cbn [countCrossings].
  rewrite (lt_zero_not_ge prev Hprev), (lt_zero_not_ge x Hx), Hx. cbn. by apply IH.
Qed.

End Exact.

(** X19: a frame of [L] samples ([2 <= L < 2^53]) that never changes
    sign, all samples [>= 0] or all samples [< 0], has zero-crossing
    rate exactly 0; an all-zero frame of at least one sample has energy
    and RMS exactly 0; the empty frame has energy and RMS NaN. *)
Theorem frame_features_one_sign (signal : list number) :
  ((2 <= len signal < 2 ^ 53)%Z ->
   Forall (fun x => (x >=? zero) = true) signal \/
   Forall (fun x => (x <? zero) = true) signal ->
   calculateZCR signal = zero) /\
  ((1 <= len signal < 2 ^ 53)%Z ->
   Forall (fun x => x = zero) signal ->
   calculateEnergy signal = zero /\ calculateRMS signal = zero) /\
  calculateEnergy [] = NaN /\ calculateRMS [] = NaN.
Proof.
  split; [|split; [|by split]].
  - intros Hlen Hsign. unfold calculateZCR.
    assert (match signal with
            | [] => 0%Z
            | x0 :: rest => countCrossings x0 rest 0
            end = 0%Z) as ->.
    { destruct signal as [|x0 rest]; [done|]. destruct Hsign as [Hall|Hall].
      - apply Forall_cons in Hall as [Hx0 Hrest].
        by apply Exact.countCrossings_nonneg.
      - apply Forall_cons in Hall as [Hx0 Hrest].
        by apply Exact.countCrossings_neg. }
    apply Exact.zero_div_of_Z. lia.
  - intros Hlen Hzero.
    assert (calculateEnergy signal = zero) as Henergy.
    { unfold calculateEnergy.
      assert (foldl (fun energy x => energy + x * x) zero signal = zero) as ->.
      { clear Hlen. induction Hzero as [|x rest -> _ IH]; [done|]. exact IH. }
      apply Exact.zero_div_of_Z. lia. }
    split; [done|]. unfold calculateRMS. by rewrite Henergy.
Qed.

Lemma frame_features_one_sign_witness :
  calculateZCR [dec 1 1; of_Z 3; zero; dec 25 2] = zero.
Proof.
  refine (proj1 (frame_features_one_sign [dec 1 1; of_Z 3; zero; dec 25 2]) _ _).
  - vm_compute. split; [discriminate|reflexivity].
  - left. repeat constructor.
Defined.

(* ===================================================================== *)
(** ** Silent recordings of any length *)
(* ===================================================================== *)

Module SilentRun.

(** What [analyzeBreathing_report] puts into its result. *)
Lemma report_fields (audioData : list number) (sampleRate : Z)
    (frames : list WindowFeature) :
  let avgEnergy := average energy frames in
  let avgRMS := average rms frames in
  let found := detectPeaks (Math_fround <$> (rms <$> frames)) (avgRMS * dec 5 1) in
  let rate :=
    if (1 <? len found)%Z
    then (of_Z (len found) / (of_Z (len audioData) / of_Z sampleRate)) * of_Z 60
    else of_Z 12 in
  let fm :=
    featureMap_of avgEnergy avgRMS (average zcr frames) (average dominantFreq frames)
      (average (fun w => Math_pow2 (energy w - avgEnergy)) frames)
      rate (len found) frames in
  let r := analyzeBreathing_report audioData sampleRate frames in
  features r = FeatureMap.features fm /\
  classification r = fst (classifyBreathing fm []) /\
  abnormalities r = PriorityQueue.getAll (snd (classifyBreathing fm [])) /\
  windowFeatures r = frames /\
  peaks r = found.
Proof.
  intros avgEnergy avgRMS found rate fm r. unfold r, analyzeBreathing_report.
  fold avgEnergy avgRMS found rate. unfold featureMap_of in fm. fold fm.
  unfold PriorityQueue.constructor. by destruct (classifyBreathing fm []).
Qed.

Lemma featureMap_of_get (avgEnergy avgRMS avgZCR avgDominantFreq energyVariance
    breathingRate : number) (peakCount : Z) (frames : list WindowFeature) :
  let fm := featureMap_of avgEnergy avgRMS avgZCR avgDominantFreq energyVariance
              breathingRate peakCount frames in
  FeatureMap.get fm "avgEnergy" = Some (FNum avgEnergy) /\
  FeatureMap.get fm "avgRMS" = Some (FNum avgRMS) /\
  FeatureMap.get fm "avgZCR" = Some (FNum avgZCR) /\
  FeatureMap.get fm "avgDominantFreq" = Some (FNum avgDominantFreq) /\
  FeatureMap.get fm "energyVariance" = Some (FNum energyVariance) /\
  FeatureMap.get fm "breathingRate" = Some (FNum breathingRate) /\
  FeatureMap.get fm "peakCount" = Some (FCount peakCount) /\
  FeatureMap.get fm "windowFeatures" = Some (FFrames frames).
Proof. repeat split. Qed.

Lemma average_zero (f : WindowFeature -> number) (frames : list WindowFeature) :
  (1 <= len frames < 2 ^ 53)%Z -> Forall (fun w => f w = zero) frames ->
  average f frames = zero.
Proof.
  intros Hlen Hall. unfold average.
  assert (foldl (fun sum w => sum + f w) zero frames = zero) as ->.
  { clear Hlen. induction Hall as [|w rest Hw _ IH]; [done|].
    cbn [foldl]. rewrite Hw. exact IH. }
  apply Exact.zero_div_of_Z. lia.
Qed.

Lemma filter_none {A : Type} (f : A -> bool) (l : list A) :
  (forall x, x ∈ l -> f x = false) -> List.filter f l = [].
Proof.
  induction l as [|x l IH]; intros Hnone; [done|]. cbn [List.filter].
  rewrite (Hnone x) by left. apply IH. intros y Hy. apply Hnone. by right.
Qed.

Lemma energySpikes_flat (frames : list WindowFeature) :
  Forall (fun w => energy w = zero) frames -> energySpikes frames = 0%Z.
Proof.
  intros Hall. unfold energySpikes. rewrite filter_none; [done|].
  intros [i w] Hiw. apply elem_of_lookup_imap in Hiw as (j & v & [= -> ->] & Hv).
  cbn [fst snd]. destruct j as [|j]; [done|].
  destruct (frames !! j) as [prev|] eqn:Hprev; [|done].
  rewrite Forall_forall in Hall.
  rewrite (Hall v) by (by apply list_elem_of_lookup_2 in Hv).
  rewrite (Hall prev) by (by apply list_elem_of_lookup_2 in Hprev). done.
Qed.

Lemma detectPeaks_flat (envelope : list number) :
  Forall (fun x => x = zero) envelope ->
  detectPeaks (Math_fround <$> envelope) (zero * dec 5 1) = [].
Proof.
  intros Hall. apply PeakCount.detectPeaks_no_candidate. intros i.
  unfold PeakProps.candidate.
  assert ((cell (Math_fround <$> envelope) i >? zero * dec 5 1) = false) as ->;
    [|by rewrite andb_false_r].
  unfold cell. rewrite list_lookup_fmap.
  destruct (envelope !! i) as [x|] eqn:Hx; [|done].
  rewrite Forall_forall in Hall.
  by rewrite (Hall x) by (by apply list_elem_of_lookup_2 in Hx).
Qed.

(** The classification of the features of a silent recording. *)
Lemma classify_flat (avgDominantFreq : number) (frames : list WindowFeature) :
  Forall (fun w => energy w = zero) frames ->
  classifyBreathing
    (featureMap_of zero zero zero avgDominantFreq zero (of_Z 12) 0 frames) []
  = (mkClassification normal (Some regular) None (of_Z 100) Good (of_Z 85),
     [PriorityQueue.mkItem
        (mkEvent noise "Poor signal quality / Environmental noise" (of_Z 35))
        (of_Z 35)]).
Proof.
  intros Hall. pose proof (energySpikes_flat frames Hall) as Hspikes.
  destruct (featureMap_of_get zero zero zero avgDominantFreq zero (of_Z 12) 0 frames)
    as (He & Hr & Hz & _ & Hv & Hb & _ & Hf).
  unfold classifyBreathing. rewrite He, Hr, Hz, Hv, Hb, Hf.
  cbn [toNumber toFrames]. unfold checkSpikes. rewrite Hspikes.
  by destruct (3 <? len frames)%Z.
Qed.

Lemma frames_silence (Math_cos Math_sin : number -> number)
    (n windowSize hopSize : Z) (sampleRate : number) :
  (0 < hopSize)%Z -> (2 <= windowSize)%Z -> (n < 2 ^ 53)%Z ->
  Forall (fun w => energy w = zero /\ rms w = zero /\ zcr w = zero)
    (analyzeWindow Math_cos Math_sin (silence n) windowSize sampleRate
       <$> frameStarts (n - windowSize) hopSize).
Proof.
  intros Hhop Hw Hn. apply Forall_fmap, Forall_forall. intros s Hs.
  apply elem_of_frameStarts in Hs as (k & Hk & -> & Hlt); [|done].
  cbn [compose]. rewrite analyzeWindow_silence by nia. cbv zeta.
  cbn [energy rms zcr].
  rewrite !Exact.zero_div_of_Z by nia. done.
Qed.

Lemma frameStarts_count (bound hop : Z) :
  (0 < hop)%Z -> (0 < bound)%Z ->
  (1 <= len (frameStarts bound hop) <= bound)%Z.
Proof.
  intros Hhop Hbound. unfold len, frameStarts. rewrite length_fmap, length_seqZ.
  assert (1 <= (bound + hop - 1) / hop)%Z by (apply Z.div_le_lower_bound; lia).
  assert ((bound + hop - 1) / hop <= bound)%Z by (apply Z.div_le_upper_bound; nia).
  lia.
Qed.

End SilentRun.

(** X20: for every sample rate of at least 4 and every all-zero
    recording longer than one window (and shorter than 2^53 samples),
    [analyzeBreathing] returns a report with avgEnergy, avgRMS, avgZCR
    and energyVariance all 0, no peak and the default breathing rate 12;
    only the signal-quality check fires, so the single abnormality is the
    noise event of severity 35, and the classification is [normal],
    [regular], stability 100, lung comfort [Good], confidence 85. *)
Theorem analyzeBreathing_any_silence (Math_cos Math_sin : number -> number)
    (n sampleRate : Z) :
  (4 <= sampleRate)%Z -> (sampleRate / 2 < n < 2 ^ 53)%Z ->
  exists r,
    analyzeBreathing Math_cos Math_sin (silence n) sampleRate = Some r /\
    features r !! "avgEnergy" = Some (FNum zero) /\
    features r !! "avgRMS" = Some (FNum zero) /\
    features r !! "avgZCR" = Some (FNum zero) /\
    features r !! "energyVariance" = Some (FNum zero) /\
    features r !! "breathingRate" = Some (FNum (of_Z 12)) /\
    peaks r = [] /\
    abnormalities r
    = [(mkEvent noise "Poor signal quality / Environmental noise" (of_Z 35),
        of_Z 35)] /\
    classification r
    = mkClassification normal (Some regular) None (of_Z 100) Good (of_Z 85).
Proof.
  intros Hrate Hn.
  assert (2 <= sampleRate / 2)%Z as Hw by (apply Z.div_le_lower_bound; lia).
  assert (0 < sampleRate / 2 / 2)%Z as Hhop
    by (apply Z.div_str_pos; lia).
  unfold analyzeBreathing. rewrite removeNoise_silence.
  rewrite slidingWindowAnalysis_eq by done. rewrite len_silence by lia.
  pose proof (SilentRun.frames_silence Math_cos Math_sin n (sampleRate / 2)
                (sampleRate / 2 / 2) (of_Z sampleRate) Hhop Hw ltac:(lia)) as Hflat.
  pose proof (SilentRun.frameStarts_count (n - sampleRate / 2) (sampleRate / 2 / 2)
                Hhop ltac:(lia)) as Hcount.
  set (frames := analyzeWindow Math_cos Math_sin (silence n) (sampleRate / 2)
                   (of_Z sampleRate)
                   <$> frameStarts (n - sampleRate / 2) (sampleRate / 2 / 2)) in *.
  assert (1 <= len frames < 2 ^ 53)%Z as Hlen.
  { unfold frames, len in *. rewrite length_fmap. lia. }
  clearbody frames. cbn [fmap option_fmap option_map]. eexists. split; [reflexivity|].
  destruct (SilentRun.report_fields (silence n) sampleRate frames)
    as (Hfeatures & Hclass & Habn & _ & Hpeaks).
  assert (average energy frames = zero) as Henergy.
  { apply SilentRun.average_zero; [done|].
    eapply Forall_impl; [exact Hflat|]. by intros w (? & _). }
  assert (average rms frames = zero) as Hrms.
  { apply SilentRun.average_zero; [done|].
    eapply Forall_impl; [exact Hflat|]. by intros w (_ & ? & _). }
  assert (average zcr frames = zero) as Hzcr.
  { apply SilentRun.average_zero; [done|].
    eapply Forall_impl; [exact Hflat|]. by intros w (_ & _ & ?). }
  assert (average (fun w => Math_pow2 (energy w - zero)) frames = zero) as Hvar.
  { apply SilentRun.average_zero; [done|].
    eapply Forall_impl; [exact Hflat|]. by intros w (-> & _). }
  assert (detectPeaks (Math_fround <$> (rms <$> frames)) (zero * dec 5 1) = [])
    as Hnone.
  { apply SilentRun.detectPeaks_flat. apply Forall_fmap.
    eapply Forall_impl; [exact Hflat|]. by intros w (_ & ? & _). }
  rewrite Henergy, Hrms, Hzcr, Hvar, Hnone in Hfeatures, Hclass, Habn.
  rewrite Hrms, Hnone in Hpeaks.
  cbn [length len Z.of_nat Z.ltb Z.compare] in Hfeatures, Hclass, Habn.
  rewrite SilentRun.classify_flat in Hclass, Habn
    by (eapply Forall_impl; [exact Hflat|]; by intros w (? & _)).
  rewrite Hfeatures, Hclass, Habn, Hpeaks. repeat split.
Qed.

Lemma analyzeBreathing_any_silence_witness :
  exists r,
    analyzeBreathing (fun _ => NaN) (fun _ => NaN) (silence 20) 8 = Some r /\
    classification r
    = mkClassification normal (Some regular) None (of_Z 100) Good (of_Z 85).
Proof.
  destruct (analyzeBreathing_any_silence (fun _ => NaN) (fun _ => NaN) 20 8)
    as (r & Hrun & _ & _ & _ & _ & _ & _ & _ & Hclass).
  - lia.
  - vm_compute. split; reflexivity.
  - exists r. split; [exact Hrun|exact Hclass].
Defined.

(* ===================================================================== *)
(** ** Sliding window: the frames by position *)
(* ===================================================================== *)

(** X13: for positive [windowSize] and [hopSize],
    [slidingWindowAnalysis] returns [ceil((length - windowSize) / hopSize)]
    frames (none when the signal is not longer than the window); the
    [k]-th frame starts at sample [k * hopSize], has time stamp
    [start / sampleRate], and is computed from a full window of
    [windowSize] samples that ends strictly before the end of the signal;
    and the next offset after the last frame no longer satisfies the loop
    test. *)
Theorem slidingWindowAnalysis_by_position (Math_cos Math_sin : number -> number)
    (signal : list number) (windowSize hopSize : Z) (sampleRate : number) :
  (0 < windowSize)%Z -> (0 < hopSize)%Z ->
  exists frames,
    slidingWindowAnalysis Math_cos Math_sin signal windowSize hopSize sampleRate
      = Some frames /\
    len frames = Z.max 0 ((len signal - windowSize + hopSize - 1) / hopSize) /\
    (forall (k : nat) (f : WindowFeature),
       frames !! k = Some f ->
       startSample f = (Z.of_nat k * hopSize)%Z /\
       timestamp f = of_Z (Z.of_nat k * hopSize) / sampleRate /\
       f = analyzeWindow Math_cos Math_sin signal windowSize sampleRate
             (Z.of_nat k * hopSize) /\
       (startSample f + windowSize < len signal)%Z /\
       len (slice signal (startSample f) (startSample f + windowSize)) = windowSize) /\
    (len signal - windowSize <= len frames * hopSize)%Z.
Proof.
  intros Hw Hhop. eexists. split; [by apply slidingWindowAnalysis_eq|].
  set (bound := (len signal - windowSize)%Z).
  assert (0 <= Z.max 0 ((bound + hopSize - 1) / hopSize))%Z as Hcount by lia.
  assert (len (analyzeWindow Math_cos Math_sin signal windowSize sampleRate
                 <$> frameStarts bound hopSize)
          = Z.max 0 ((bound + hopSize - 1) / hopSize)) as Hlen.
  { unfold len, frameStarts. rewrite !length_fmap, length_seqZ. lia. }
  split; [exact Hlen|]. split.
  - intros k f Hf. rewrite list_lookup_fmap in Hf.
    destruct (frameStarts bound hopSize !! k) as [s|] eqn:Hs; [|done].
    injection Hf as <-.
    assert (s ∈ frameStarts bound hopSize) as Hin
      by (by apply list_elem_of_lookup_2 in Hs).
    apply elem_of_frameStarts in Hin as (j & Hj & Hsj & Hlt); [|done].
    unfold frameStarts in Hs. rewrite list_lookup_fmap in Hs.
    destruct (seqZ 0 ((bound + hopSize - 1) / hopSize) !! k) as [i|] eqn:Hi; [|done].
    apply lookup_seqZ in Hi as [-> _]. injection Hs as <-.
    rewrite Z.add_0_l.
    assert (forall s, startSample (analyzeWindow Math_cos Math_sin signal windowSize
                                     sampleRate s) = s) as Hstart by done.
    rewrite !Hstart.
    split; [done|]. split; [done|]. split; [done|]. unfold bound in Hlt.
    split; [lia|]. apply slice_length; nia.
  - rewrite Hlen. destruct (Z.le_gt_cases bound 0) as [Hle|Hgt].
    + assert (0 <= Z.max 0 ((bound + hopSize - 1) / hopSize) * hopSize)%Z by nia. lia.
    + pose proof (Z.mul_succ_div_gt (bound + hopSize - 1) hopSize Hhop). nia.
Qed.

Lemma slidingWindowAnalysis_by_position_witness :
  exists frames,
    slidingWindowAnalysis (fun _ => NaN) (fun _ => NaN)
      [of_Z 1; of_Z 2; of_Z 3; of_Z 4; of_Z 5; of_Z 6] 3 2 (of_Z 8) = Some frames /\
    len frames = 2%Z.
Proof.
  destruct (slidingWindowAnalysis_by_position (fun _ => NaN) (fun _ => NaN)
              [of_Z 1; of_Z 2; of_Z 3; of_Z 4; of_Z 5; of_Z 6] 3 2 (of_Z 8))
    as (frames & Hrun & Hlen & _); [lia|lia|].
  exists frames. split; [exact Hrun|exact Hlen].
Defined.

(* ===================================================================== *)
(** ** The report as a whole *)
(* ===================================================================== *)

(** X21: every report is consistent with itself: the feature map
    records the number of peaks and the frames that the report also gives
    at top level, and the breathing rate is the default 12 whenever fewer
    than two peaks were found; at most five abnormalities are listed; an
    [abnormal] report lists at least one, and a [normal] report lists
    either none or just the noise event of severity 35. *)
Theorem report_consistent (audioData : list number) (sampleRate : Z)
    (frames : list WindowFeature) :
  let r := analyzeBreathing_report audioData sampleRate frames in
  windowFeatures r = frames /\
  features r !! "windowFeatures" = Some (FFrames (windowFeatures r)) /\
  features r !! "peakCount" = Some (FCount (len (peaks r))) /\
  ((len (peaks r) <= 1)%Z -> features r !! "breathingRate" = Some (FNum (of_Z 12))) /\
  (length (abnormalities r) <= 5)%nat /\
  (status (classification r) = abnormal -> abnormalities r <> []) /\
  (status (classification r) = normal ->
   abnormalities r = [] \/
   abnormalities r
   = [(mkEvent noise "Poor signal quality / Environmental noise" (of_Z 35),
       of_Z 35)]).
Proof.
  intros r.
  destruct (SilentRun.report_fields audioData sampleRate frames)
    as (Hfeatures & Hclass & Habn & Hframes & Hpeaks).
  fold r in Hfeatures, Hclass, Habn, Hframes, Hpeaks.
  set (fm := featureMap_of _ _ _ _ _ _ _ _) in *.
  rewrite Hfeatures, Hclass, Habn, Hframes, Hpeaks.
  rewrite ClassifierQueue.classify_queue, ClassifierQueue.classify_status.
  split; [done|]. split; [done|]. split; [done|]. split; [|split; [|split]].
  - intros Hfew. unfold fm, featureMap_of, FeatureMap.set, FeatureMap.constructor.
    cbn [FeatureMap.features].
    destruct (Z.ltb_spec 1 (len (detectPeaks (Math_fround <$> (rms <$> frames))
                                   (average rms frames * dec 5 1)))); [lia|done].
  - unfold PriorityQueue.getAll. rewrite length_fmap.
    destruct (ClassifierQueue.checks_grown fm []) as (Hlen & _). cbn in Hlen. lia.
  - destruct (isNormal (ClassifierProps.checks fm [])) eqn:Hn; [discriminate|].
    intros _. pose proof (ClassifierProps.checks_nonempty fm [] Hn) as Hne.
    by destruct (abnormalityQueue (ClassifierProps.checks fm [])).
  - destruct (isNormal (ClassifierProps.checks fm [])) eqn:Hn; [|discriminate].
    intros _. destruct (ClassifierProps.checks_score fm [] Hn) as (-> & _).
    pose proof (ClassifierProps.checkSignal_fires fm (mkState true zero [])) as Hfires.
    unfold ClassifierProps.fires in Hfires.
    destruct (ClassifierProps.signalPoor fm).
    + right. destruct Hfires as [-> _]. reflexivity.
    + left. by rewrite Hfires.
Qed.
